(** * TestRunner (src/core/test-runner.ts): a shallow embedding

    The runner drives a remote desktop-automation client.  Its methods are
    [async] and every remote call is awaited at once, so each method is a
    sequential program over the outside world that either returns a value or
    throws.  The embedding is a state-and-exception monad:

    - the outside world (automation server, client library, system clock) is
      an abstract state [World]; the client's operations are arbitrary
      functions over it, so every behaviour of the collaborator is covered;
    - next to the world the state carries a [trace]: the requests the runner
      sent to the client and the delays it asked for, in order.  The trace is
      what lets statements say that an operation was (not) attempted;
    - the [result] object that [executeTestCase] mutates in place is a second
      state component, live for the extent of that call.

    Left out: console output (it has no influence on results), and the
    unused [timeout] and [retries] fields.

    Strings are [String.string]; [toLowerCase] gives meaning to the ASCII
    letters only.  JavaScript's [parseInt] is not computed here: it is an
    operation of the host, like the clock and the timer, so that statements
    about wait steps hold for whatever [parseInt] returns. *)

From Stdlib Require Import String Ascii List ZArith Lia Bool.
Import ListNotations.
Local Open Scope string_scope.

(** ** JavaScript values *)

(** The numbers handed to the timer: the literals 1000 and 2000 and the
    results of [parseInt], which are [NaN], an infinity, negative zero, or
    an integer. *)
Inductive JsNumber : Type :=
| NaN
| Num (z : Z)
| Infinity (negative : bool)
| NegativeZero.

(** What a [throw] can carry: an [Error] (also any subclass but [ApiError]),
    the client's [ApiError] (a subclass of [Error] with a status code), some
    other value [v] kept as the text [String(v)] gives for it, or some other
    value [v] that has no such text: [String(v)] itself throws [raised] (an
    object without prototype makes it throw a [TypeError]). *)
Inductive Thrown : Type :=
| ErrorObj (message : string)
| ApiError (status : Z) (message : string)
| NonError (rendering : string)
| Unrenderable (raised : Thrown).

(** Truthiness narrowing of an optional string field: [undefined] and the
    empty string are falsy; a truthy field yields its string. *)
Definition truthy (field : option string) : option string :=
  match field with
  | Some s => if (s =? "")%string then None else Some s
  | None => None
  end.

(** ** String primitives *)

Definition dquote : string := String (ascii_of_nat 34) EmptyString.

Definition lowerChar (c : ascii) : ascii :=
  let n := nat_of_ascii c in
  if ((65 <=? n) && (n <=? 90))%nat then ascii_of_nat (n + 32) else c.

Fixpoint toLowerCase (s : string) : string :=
  match s with
  | EmptyString => EmptyString
  | String c rest => String (lowerChar c) (toLowerCase rest)
  end.

(** [s.includes(sub)] *)
Fixpoint includes (s sub : string) : bool :=
  if prefix sub s then true
  else match s with
       | EmptyString => false
       | String _ rest => includes rest sub
       end.

(** The [parseInt] of the scripted host further down: leading ASCII white
    space is skipped, a sign is read, a [0x]/[0X] prefix selects radix 16
    (otherwise 10), and the longest run of digits is converted; no digit
    gives [NaN].  It answers as JavaScript's [parseInt] does on ASCII
    strings whose digits denote less than 2^53, which covers the scripted
    cases; it is not the model of [parseInt], which is [Host.parseInt]. *)
Definition isWhiteSpace (c : ascii) : bool :=
  let n := nat_of_ascii c in
  ((9 <=? n) && (n <=? 13) || (n =? 32))%nat.

Fixpoint trimStart (s : string) : string :=
  match s with
  | EmptyString => EmptyString
  | String c rest => if isWhiteSpace c then trimStart rest else s
  end.

Definition digitOf (c : ascii) : option Z :=
  let n := nat_of_ascii c in
  if ((48 <=? n) && (n <=? 57))%nat then Some (Z.of_nat (n - 48))
  else if ((97 <=? n) && (n <=? 122))%nat then Some (Z.of_nat (n - 87))
  else if ((65 <=? n) && (n <=? 90))%nat then Some (Z.of_nat (n - 55))
  else None.

Fixpoint takeDigits (radix : Z) (s : string) : list Z :=
  match s with
  | EmptyString => []
  | String c rest =>
      match digitOf c with
      | Some d => if (d <? radix)%Z then d :: takeDigits radix rest else []
      | None => []
      end
  end.

Definition readSign (s : string) : Z * string :=
  match s with
  | String "-" rest => ((-1)%Z, rest)
  | String "+" rest => (1%Z, rest)
  | _ => (1%Z, s)
  end.

Definition readRadix (s : string) : Z * string :=
  match s with
  | String "0" (String "x" rest) => (16%Z, rest)
  | String "0" (String "X" rest) => (16%Z, rest)
  | _ => (10%Z, s)
  end.

Definition asciiParseInt (s : string) : JsNumber :=
  let (sign, s1) := readSign (trimStart s) in
  let (radix, s2) := readRadix s1 in
  match takeDigits radix s2 with
  | [] => NaN
  | ds => Num (sign * fold_left (fun acc d => acc * radix + d) ds 0)%Z
  end.

(** ** The state-and-exception monad *)

Inductive outcome (A : Type) : Type :=
| Returned (a : A)
| Threw (error : Thrown).
Arguments Returned {A} a.
Arguments Threw {A} error.

Definition M (S A : Type) : Type := S -> outcome A * S.

Definition ret {S A} (a : A) : M S A := fun s => (Returned a, s).

Definition throw {S A} (error : Thrown) : M S A := fun s => (Threw error, s).

Definition bind {S A B} (m : M S A) (k : A -> M S B) : M S B :=
  fun s =>
    match m s with
    | (Returned a, s') => k a s'
    | (Threw error, s') => (Threw error, s')
    end.

(** [try { body } catch (error) { handler }]: the handler starts from the
    state the body had reached when it threw; nothing is rolled back. *)
Definition try_catch {S A} (body : M S A) (handler : Thrown -> M S A) : M S A :=
  fun s =>
    match body s with
    | (Returned a, s') => (Returned a, s')
    | (Threw error, s') => handler error s'
    end.

(** A computation without effect on the state that returns or throws. *)
Definition evaluate {S A} (result : outcome A) : M S A := fun s => (result, s).

(** [error instanceof Error ? error.message : String(error)]: the message
    of an [Error], the text of another value, or the throw of [String]. *)
Definition errorMessageOf (error : Thrown) : outcome string :=
  match error with
  | ErrorObj message => Returned message
  | ApiError _ message => Returned message
  | NonError rendering => Returned rendering
  | Unrenderable raised => Threw raised
  end.

Declare Scope run_scope.
Delimit Scope run_scope with run.
Notation "x <- m ;; k" := (bind m (fun x => k))
  (at level 61, m at next level, right associativity) : run_scope.
Notation "m ;; k" := (bind m (fun _ => k))
  (at level 61, right associativity) : run_scope.
Local Open Scope run_scope.

(** ** Data model *)

(** Modelled from the spec: the declarations of [TestCase] and [TestStep]
    (src/models/test-case.ts) are not among the sources; the fields are those
    of section 3 of the specification, which are also the only ones the
    runner reads.  [action] is a plain string: the runner's [switch] has a
    [default] branch for values outside the four known actions.
    [StepResult] and [TestResult] have the fields of the object literals
    that [executeTestCase] builds. *)

Inductive Status : Type := PASS | FAIL | ERROR.

Module TestStep.
Record t : Type := mk {
  description : string;
  action : string;
  selector : option string;
  value : option string
}.
End TestStep.

Module TestCase.
Record t : Type := mk {
  application : string;
  steps : list TestStep.t
}.
End TestCase.

Module StepResult.
Record t : Type := mk {
  step : TestStep.t;
  status : Status;
  error : option string
}.
End StepResult.

Module TestResult.
Record t : Type := mk {
  testCase : TestCase.t;
  status : Status;
  startTime : Z;
  endTime : Z;
  duration : Z;
  steps : list StepResult.t;
  error : option string
}.

Definition set_status (v : Status) (r : t) : t :=
  mk (testCase r) v (startTime r) (endTime r) (duration r) (steps r) (error r).
Definition set_error (v : string) (r : t) : t :=
  mk (testCase r) (status r) (startTime r) (endTime r) (duration r) (steps r) (Some v).
Definition set_endTime (v : Z) (r : t) : t :=
  mk (testCase r) (status r) (startTime r) v (duration r) (steps r) (error r).
Definition set_duration (v : Z) (r : t) : t :=
  mk (testCase r) (status r) (startTime r) (endTime r) v (steps r) (error r).
Definition push_step (v : StepResult.t) (r : t) : t :=
  mk (testCase r) (status r) (startTime r) (endTime r) (duration r) (steps r ++ [v]) (error r).
End TestResult.

(** ** The collaborator: the desktop-use client, the clock and the timer *)

Module DesktopUse.
Record TextResponse : Type := { text : string }.

Record Client (World Handle : Type) : Type := {
  openApplication : string -> World -> outcome unit * World;
  locator : string -> World -> outcome Handle * World;
  click : Handle -> World -> outcome unit * World;
  typeText : Handle -> string -> World -> outcome unit * World;
  getText : Handle -> World -> outcome TextResponse * World;
  isVisible : Handle -> World -> outcome bool * World;
  pressKey : Handle -> string -> World -> outcome unit * World
}.
Arguments openApplication {World Handle}.
Arguments locator {World Handle}.
Arguments click {World Handle}.
Arguments typeText {World Handle}.
Arguments getText {World Handle}.
Arguments isVisible {World Handle}.
Arguments pressKey {World Handle}.
End DesktopUse.

Module Host.
(** [clock] is [new Date()] read as a millisecond timestamp; [elapse] is
    what the world does while the runner is suspended in [setTimeout];
    [parseInt] is the global function of that name, called with one
    argument. *)
Record t (World : Type) : Type := {
  clock : World -> Z * World;
  elapse : JsNumber -> World -> World;
  parseInt : string -> JsNumber
}.
Arguments clock {World}.
Arguments elapse {World}.
Arguments parseInt {World}.
End Host.

(** Requests sent to the collaborator, and delays asked for. *)
Inductive Event (Handle : Type) : Type :=
| OpenApplication (executableName : string)
| Locator (selector : string)
| Click (element : Handle)
| TypeText (element : Handle) (text : string)
| GetText (element : Handle)
| IsVisible (element : Handle)
| PressKey (element : Handle) (key : string)
| Sleep (ms : JsNumber).
Arguments OpenApplication {Handle}.
Arguments Locator {Handle}.
Arguments Click {Handle}.
Arguments TypeText {Handle}.
Arguments GetText {Handle}.
Arguments IsVisible {Handle}.
Arguments PressKey {Handle}.
Arguments Sleep {Handle}.

Module Env.
Record t (World Handle : Type) : Type := mk {
  world : World;
  trace : list (Event Handle)
}.
Arguments mk {World Handle}.
Arguments world {World Handle}.
Arguments trace {World Handle}.
End Env.

(** The state while [executeTestCase] runs: the environment and the
    [result] object under construction. *)
Module Frame.
Record t (World Handle : Type) : Type := mk {
  env : Env.t World Handle;
  result : TestResult.t
}.
Arguments mk {World Handle}.
Arguments env {World Handle}.
Arguments result {World Handle}.
End Frame.

(** ** The runner *)

Module TestRunner.
Section WithCollaborator.

Variables World Handle : Type.
Variable client : DesktopUse.Client World Handle.
Variable host : Host.t World.

Local Abbreviation Env := (Env.t World Handle).
Local Abbreviation Frame := (Frame.t World Handle).

(** One awaited call on the client: the request is recorded, then the
    collaborator answers and moves the world. *)
Definition remote {A} (request : Event Handle)
    (call : World -> outcome A * World) : M Env A :=
  fun e =>
    let (answer, w) := call (Env.world e) in
    (answer, Env.mk w (Env.trace e ++ [request])).

(** [sleep(ms)]: resolves after the timer fires; never rejects. *)
Definition sleep (ms : JsNumber) : M Env unit :=
  fun e =>
    (Returned tt,
     Env.mk (Host.elapse host ms (Env.world e)) (Env.trace e ++ [Sleep ms])).

(** [new Date()] *)
Definition newDate : M Env Z :=
  fun e =>
    let (now, w) := Host.clock host (Env.world e) in
    (Returned now, Env.mk w (Env.trace e)).

Definition launchApp (appName : string) : M Env unit :=
  try_catch
    (let executableName :=
       if (toLowerCase appName =? "calculator")%string then "calc" else appName in
     remote (OpenApplication executableName)
            (DesktopUse.openApplication client executableName) ;;
     sleep (Num 2000))
    (fun error => throw error).

Definition findElement (selector : string) : M Env Handle :=
  try_catch
    (remote (Locator selector) (DesktopUse.locator client selector))
    (fun error => throw error).

Definition clickElement (selector : string) : M Env unit :=
  try_catch
    (element <- findElement selector ;;
     remote (Click element) (DesktopUse.click client element))
    (fun error => throw error).

Definition typeText (selector text : string) : M Env unit :=
  try_catch
    (element <- findElement selector ;;
     remote (TypeText element text) (DesktopUse.typeText client element text))
    (fun error => throw error).

Definition getText (selector : string) : M Env string :=
  try_catch
    (element <- findElement selector ;;
     result <- remote (GetText element) (DesktopUse.getText client element) ;;
     ret (DesktopUse.text result))
    (fun error => throw error).

Definition verifyElementVisible (selector : string) : M Env bool :=
  try_catch
    (element <- findElement selector ;;
     remote (IsVisible element) (DesktopUse.isVisible client element))
    (fun _ => ret false).

Definition pressKey (selector key : string) : M Env unit :=
  try_catch
    (element <- findElement selector ;;
     remote (PressKey element key) (DesktopUse.pressKey client element key))
    (fun error => throw error).

Definition executeStep (step : TestStep.t) : M Env unit :=
  let action := TestStep.action step in
  if (action =? "click")%string then
    match truthy (TestStep.selector step) with
    | None =>
        throw (ErrorObj ("Missing selector for click action in step: "
                         ++ TestStep.description step))
    | Some selector => clickElement selector
    end
  else if (action =? "type")%string then
    match truthy (TestStep.selector step) with
    | None =>
        throw (ErrorObj ("Missing selector for type action in step: "
                         ++ TestStep.description step))
    | Some selector =>
        match truthy (TestStep.value step) with
        | None =>
            throw (ErrorObj ("Missing value for type action in step: "
                             ++ TestStep.description step))
        | Some value => typeText selector value
        end
    end
  else if (action =? "verify")%string then
    match truthy (TestStep.selector step) with
    | None =>
        throw (ErrorObj ("Missing selector for verify action in step: "
                         ++ TestStep.description step))
    | Some selector =>
        match truthy (TestStep.value step) with
        | None =>
            throw (ErrorObj ("Missing expected value for verify action in step: "
                             ++ TestStep.description step))
        | Some value =>
            text <- getText selector ;;
            if negb (includes text value) then
              throw (ErrorObj ("Verification failed. Expected text containing "
                               ++ dquote ++ value ++ dquote ++ " but got "
                               ++ dquote ++ text ++ dquote))
            else ret tt
        end
    end
  else if (action =? "wait")%string then
    let waitTime :=
      match truthy (TestStep.value step) with
      | Some value => Host.parseInt host value
      | None => Num 1000
      end in
    sleep waitTime
  else
    throw (ErrorObj ("Unknown step action: " ++ action)).

(** *** [executeTestCase] *)

Definition liftEnv {A} (m : M Env A) : M Frame A :=
  fun f =>
    let (answer, e) := m (Frame.env f) in
    (answer, Frame.mk e (Frame.result f)).

Definition updateResult (change : TestResult.t -> TestResult.t) : M Frame unit :=
  fun f => (Returned tt, Frame.mk (Frame.env f) (change (Frame.result f))).

Definition readResult : M Frame TestResult.t :=
  fun f => (Returned (Frame.result f), f).

(** [const result = {...}] followed by the rest of the function body. *)
Definition withResult {A} (initial : TestResult.t) (body : M Frame A) : M Env A :=
  fun e =>
    let (answer, f) := body (Frame.mk e initial) in
    (answer, Frame.env f).

Inductive Completion : Type := Normal | Break.

(** [for (const step of steps) { try {...} catch (error) {...; break} }] *)
Fixpoint forOfSteps (steps : list TestStep.t) : M Frame unit :=
  match steps with
  | [] => ret tt
  | step :: rest =>
      completion <-
        try_catch
          (liftEnv (executeStep step) ;;
           updateResult (TestResult.push_step (StepResult.mk step PASS None)) ;;
           ret Normal)
          (fun error =>
             errorMessage <- evaluate (errorMessageOf error) ;;
             updateResult
               (TestResult.push_step (StepResult.mk step FAIL (Some errorMessage))) ;;
             updateResult (TestResult.set_status FAIL) ;;
             updateResult
               (TestResult.set_error
                  ("Step failed: " ++ TestStep.description step
                   ++ ". Error: " ++ errorMessage)) ;;
             ret Break) ;;
      match completion with
      | Normal => forOfSteps rest
      | Break => ret tt
      end
  end.

Definition executeTestCase (testCase : TestCase.t) : M Env TestResult.t :=
  startTime <- newDate ;;
  endTime <- newDate ;;
  withResult (TestResult.mk testCase PASS startTime endTime 0 [] None)
    (try_catch
       (liftEnv (launchApp (TestCase.application testCase)) ;;
        forOfSteps (TestCase.steps testCase))
       (fun error =>
          errorMessage <- evaluate (errorMessageOf error) ;;
          updateResult (TestResult.set_status ERROR) ;;
          updateResult
            (TestResult.set_error ("Test execution error: " ++ errorMessage))) ;;
     now <- liftEnv newDate ;;
     updateResult (TestResult.set_endTime now) ;;
     updateResult
       (fun r => TestResult.set_duration
                   (TestResult.endTime r - TestResult.startTime r) r) ;;
     readResult).

(** *** Vocabulary for the statements *)

(** The two halves of [newDate]: the timestamp read, and the state after. *)
Definition readClock (e : Env) : Z := fst (Host.clock host (Env.world e)).

Definition tick (e : Env) : Env :=
  Env.mk (snd (Host.clock host (Env.world e))) (Env.trace e).

(** The bare exchange behind an element operation, with no error handling:
    the selector is located; if that throws, the error is the outcome;
    otherwise [op] is called on the handle and its outcome is the outcome. *)
Definition located {A} (selector : string) (request : Handle -> Event Handle)
    (op : Handle -> World -> outcome A * World) (e : Env) : outcome A * Env :=
  match DesktopUse.locator client selector (Env.world e) with
  | (Threw error, w) =>
      (Threw error, Env.mk w (Env.trace e ++ [Locator selector]))
  | (Returned element, w) =>
      let (answer, w') := op element w in
      (answer, Env.mk w' (Env.trace e ++ [Locator selector; request element]))
  end.

(** The bare exchange behind a launch: the open request for
    [executableName]; if it returns, the 2000 ms settle delay. *)
Definition openAndSettle (executableName : string) (e : Env) : outcome unit * Env :=
  match DesktopUse.openApplication client executableName (Env.world e) with
  | (Threw error, w) =>
      (Threw error, Env.mk w (Env.trace e ++ [OpenApplication executableName]))
  | (Returned _, w) =>
      (Returned tt,
       Env.mk (Host.elapse host (Num 2000) w)
         (Env.trace e ++ [OpenApplication executableName; Sleep (Num 2000)]))
  end.

(** [stepsSucceed steps e e']: run one after the other from [e], every step
    of [steps] returns, and the last one leaves the state [e']. *)
Inductive stepsSucceed : list TestStep.t -> Env -> Env -> Prop :=
| succeed_nil : forall e, stepsSucceed [] e e
| succeed_cons : forall step rest e e1 e',
    executeStep step e = (Returned tt, e1) ->
    stepsSucceed rest e1 e' ->
    stepsSucceed (step :: rest) e e'.

(** [firstFailure steps e k step error e']: run from [e], the steps before
    index [k] (counted from 0) return, and the step at index [k], which is
    [step], throws [error] and leaves the state [e']. *)
Inductive firstFailure :
  list TestStep.t -> Env -> nat -> TestStep.t -> Thrown -> Env -> Prop :=
| fails_here : forall step rest e error e',
    executeStep step e = (Threw error, e') ->
    firstFailure (step :: rest) e 0 step error e'
| fails_later : forall first rest e e1 k step error e',
    executeStep first e = (Returned tt, e1) ->
    firstFailure rest e1 k step error e' ->
    firstFailure (first :: rest) e (S k) step error e'.

End WithCollaborator.

Arguments remote {World Handle A}.
Arguments sleep {World Handle}.
Arguments newDate {World Handle}.
Arguments launchApp {World Handle}.
Arguments findElement {World Handle}.
Arguments clickElement {World Handle}.
Arguments typeText {World Handle}.
Arguments getText {World Handle}.
Arguments verifyElementVisible {World Handle}.
Arguments pressKey {World Handle}.
Arguments executeStep {World Handle}.
Arguments liftEnv {World Handle A}.
Arguments updateResult {World Handle}.
Arguments readResult {World Handle}.
Arguments withResult {World Handle A}.
Arguments forOfSteps {World Handle}.
Arguments executeTestCase {World Handle}.
Arguments readClock {World Handle}.
Arguments tick {World Handle}.
Arguments located {World Handle} client {A}.
Arguments openAndSettle {World Handle}.
Arguments stepsSucceed {World Handle}.
Arguments firstFailure {World Handle}.

End TestRunner.

(** The result object once [rs] more step results have been pushed. *)
Definition recorded (rs : list StepResult.t) (r : TestResult.t) : TestResult.t :=
  TestResult.mk (TestResult.testCase r) (TestResult.status r)
    (TestResult.startTime r) (TestResult.endTime r) (TestResult.duration r)
    (TestResult.steps r ++ rs) (TestResult.error r).

(** The step results the loop records. *)
Definition passed (step : TestStep.t) : StepResult.t :=
  StepResult.mk step PASS None.

Definition failed (step : TestStep.t) (errorMessage : string) : StepResult.t :=
  StepResult.mk step FAIL (Some errorMessage).

Definition stepFailedMessage (step : TestStep.t) (errorMessage : string) : string :=
  "Step failed: " ++ TestStep.description step ++ ". Error: " ++ errorMessage.

Definition verificationFailedMessage (value text : string) : string :=
  "Verification failed. Expected text containing "
  ++ dquote ++ value ++ dquote ++ " but got " ++ dquote ++ text ++ dquote.

(** ** A scripted collaborator, for running the runner on concrete cases

    The world is the wall clock in milliseconds; every clock read costs 5 ms
    and a delay of [n] ms advances it by [n]; [parseInt] is [asciiParseInt].
    An element handle is the selector it was located with. *)
Module Script.

Definition World : Type := Z.
Definition Handle : Type := string.

Definition client : DesktopUse.Client World Handle := {|
  DesktopUse.openApplication := fun name w =>
    if (name =? "ghostapp")%string
    then (Threw (ApiError 404 "Application not found"), w)
    else (Returned tt, w);
  DesktopUse.locator := fun selector w =>
    if (selector =? "name:Ghost")%string
    then (Threw (ErrorObj "Element not found"), w)
    else (Returned selector, w);
  DesktopUse.click := fun element w =>
    if (element =? "name:Disabled")%string
    then (Threw (NonError "click rejected"), w)
    else (Returned tt, w);
  DesktopUse.typeText := fun _ _ w => (Returned tt, w);
  DesktopUse.getText := fun _ w =>
    (Returned {| DesktopUse.text := "Hello World" |}, w);
  DesktopUse.isVisible := fun element w =>
    if (element =? "name:Stale")%string
    then (Threw (ErrorObj "Stale element"), w)
    else (Returned (element =? "name:Display")%string, w);
  DesktopUse.pressKey := fun element _ w =>
    if (element =? "name:Disabled")%string
    then (Threw (ErrorObj "Element is disabled"), w)
    else (Returned tt, w)
|}.

Definition host : Host.t World := {|
  Host.clock := fun w => (w, (w + 5)%Z);
  Host.elapse := fun ms w =>
    match ms with
    | Num n => (w + n)%Z
    | _ => (w + 1)%Z
    end;
  Host.parseInt := asciiParseInt
|}.

Definition start : Env.t World Handle := Env.mk 1000%Z [].

Definition clickSeven : TestStep.t :=
  TestStep.mk "Click seven" "click" (Some "name:Seven") None.
Definition clickDisabled : TestStep.t :=
  TestStep.mk "Click the disabled button" "click" (Some "name:Disabled") None.
Definition typeHello : TestStep.t :=
  TestStep.mk "Type a greeting" "type" (Some "name:Edit") (Some "Hello").
Definition verifyHello : TestStep.t :=
  TestStep.mk "Greeting is shown" "verify" (Some "name:Display") (Some "Hello").
Definition verifyGoodbye : TestStep.t :=
  TestStep.mk "Farewell is shown" "verify" (Some "name:Display") (Some "Goodbye").
Definition verifyEmpty : TestStep.t :=
  TestStep.mk "Anything is shown" "verify" (Some "name:Display") (Some "").
Definition waitFifty : TestStep.t :=
  TestStep.mk "Settle" "wait" None (Some "50").
Definition waitEmpty : TestStep.t :=
  TestStep.mk "Settle" "wait" None (Some "").

(** Three test cases, and the states their runs pass through. *)
Definition failingCase : TestCase.t :=
  TestCase.mk "Calculator" [clickSeven; typeHello; clickDisabled; clickSeven].
Definition passingCase : TestCase.t :=
  TestCase.mk "CALCULATOR" [clickSeven; typeHello; verifyHello; waitFifty].
Definition ghostCase : TestCase.t :=
  TestCase.mk "ghostapp" [clickSeven].

Definition launched : Env.t World Handle :=
  Env.mk 3010%Z [OpenApplication "calc"; Sleep (Num 2000)].
Definition launchRefused : Env.t World Handle :=
  Env.mk 1010%Z [OpenApplication "ghostapp"].
Definition afterDisabled : Env.t World Handle :=
  Env.mk 3010%Z
    [OpenApplication "calc"; Sleep (Num 2000);
     Locator "name:Seven"; Click "name:Seven";
     Locator "name:Edit"; TypeText "name:Edit" "Hello";
     Locator "name:Disabled"; Click "name:Disabled"].
Definition afterPassing : Env.t World Handle :=
  Env.mk 3060%Z
    [OpenApplication "calc"; Sleep (Num 2000);
     Locator "name:Seven"; Click "name:Seven";
     Locator "name:Edit"; TypeText "name:Edit" "Hello";
     Locator "name:Display"; GetText "name:Display";
     Sleep (Num 50)].

End Script.

(** ** Vocabulary for the properties of a whole run *)

(** The requests a test step can cause: locating, clicking, typing, reading
    text, and delays.  Opening an application, visibility checks and key
    presses are not among them. *)
Definition stepRequest {Handle} (ev : Event Handle) : bool :=
  match ev with
  | Locator _ | Click _ | TypeText _ _ | GetText _ | Sleep _ => true
  | OpenApplication _ | IsVisible _ | PressKey _ _ => false
  end.

(** [emits allowed n m]: from any state, [m] leaves the trace it finds in
    place and appends at most [n] events, all of them [allowed]. *)
Definition emits {World Handle A} (allowed : Event Handle -> bool) (n : nat)
    (m : M (Env.t World Handle) A) : Prop :=
  forall e, exists added,
    Env.trace (snd (m e)) = (Env.trace e ++ added)%list
    /\ forallb allowed added = true
    /\ (length added <= n)%nat.

(** [nondecreasing host m]: the clock does not read less after [m] than
    before it. *)
Definition nondecreasing {World Handle A} (host : Host.t World)
    (m : M (Env.t World Handle) A) : Prop :=
  forall e,
    (TestRunner.readClock host e <= TestRunner.readClock host (snd (m e)))%Z.

(** A steady clock: neither reading it, nor a delay, nor any of the client
    operations a test case uses makes it read less than before. *)
Definition steadyClock {World Handle} (client : DesktopUse.Client World Handle)
    (host : Host.t World) : Prop :=
  let time := fun w => fst (Host.clock host w) in
  (forall w, time w <= time (snd (Host.clock host w)))%Z
  /\ (forall ms w, time w <= time (Host.elapse host ms w))%Z
  /\ (forall name w,
        time w <= time (snd (DesktopUse.openApplication client name w)))%Z
  /\ (forall selector w,
        time w <= time (snd (DesktopUse.locator client selector w)))%Z
  /\ (forall element w,
        time w <= time (snd (DesktopUse.click client element w)))%Z
  /\ (forall element text w,
        time w <= time (snd (DesktopUse.typeText client element text w)))%Z
  /\ (forall element w,
        time w <= time (snd (DesktopUse.getText client element w)))%Z.

(** More of the scripted collaborator: a host whose timer, like
    [setTimeout], never runs backwards (a negative delay counts as none),
    and a test case with a step of unknown action. *)
Module MoreScript.

Definition steadyHost : Host.t Script.World := {|
  Host.clock := fun w => (w, (w + 5)%Z);
  Host.elapse := fun ms w =>
    match ms with
    | Num n => (w + Z.max 0 n)%Z
    | _ => (w + 1)%Z
    end;
  Host.parseInt := asciiParseInt
|}.

Definition scroll : TestStep.t :=
  TestStep.mk "Scroll down" "scroll" (Some "name:List") None.

Definition clickNowhere : TestStep.t :=
  TestStep.mk "Click" "click" None (Some "ignored").

Definition typeNothing : TestStep.t :=
  TestStep.mk "Type" "type" (Some "name:Edit") None.

Definition scrollCase : TestCase.t :=
  TestCase.mk "Calculator" [Script.clickSeven; scroll; Script.clickSeven].

Definition afterSeven : Env.t Script.World Script.Handle :=
  Env.mk 3010%Z
    [OpenApplication "calc"; Sleep (Num 2000);
     Locator "name:Seven"; Click "name:Seven"].

(** What [throw Object.create(null)] carries: [String] of it throws a
    [TypeError]. *)
Definition bareObject : Thrown :=
  Unrenderable (ErrorObj "Cannot convert object to primitive value").

(** The scripted client, except that opening [nullapp] and clicking
    [name:Broken] throw [bareObject]. *)
Definition bareClient : DesktopUse.Client Script.World Script.Handle := {|
  DesktopUse.openApplication := fun name w =>
    if (name =? "nullapp")%string then (Threw bareObject, w)
    else DesktopUse.openApplication Script.client name w;
  DesktopUse.locator := DesktopUse.locator Script.client;
  DesktopUse.click := fun element w =>
    if (element =? "name:Broken")%string then (Threw bareObject, w)
    else DesktopUse.click Script.client element w;
  DesktopUse.typeText := DesktopUse.typeText Script.client;
  DesktopUse.getText := DesktopUse.getText Script.client;
  DesktopUse.isVisible := DesktopUse.isVisible Script.client;
  DesktopUse.pressKey := DesktopUse.pressKey Script.client
|}.

Definition clickBroken : TestStep.t :=
  TestStep.mk "Click the broken button" "click" (Some "name:Broken") None.

Definition bareLaunchCase : TestCase.t :=
  TestCase.mk "nullapp" [Script.clickSeven].

Definition bareStepCase : TestCase.t :=
  TestCase.mk "Calculator" [Script.clickSeven; clickBroken; Script.clickSeven].

Definition afterBroken : Env.t Script.World Script.Handle :=
  Env.mk 3010%Z
    [OpenApplication "calc"; Sleep (Num 2000);
     Locator "name:Seven"; Click "name:Seven";
     Locator "name:Broken"; Click "name:Broken"].

End MoreScript.

(** * Properties *)

(** ** Strings *)

Lemma prefix_app : forall sub s,
  prefix sub s = true <-> exists post, s = sub ++ post.
Proof.
  induction sub as [|c sub IH]; intros s.
  - split; [intros _; now exists s | now destruct s].
  - destruct s as [|d s]; simpl.
    + split; [discriminate | intros [post H]; discriminate].
    + destruct (ascii_dec c d) as [->|Hcd].
      * split.
        -- intros H. apply IH in H as [post ->]. now exists post.
        -- intros [post H]. apply IH. exists post. now injection H.
      * split; [discriminate|].
        intros [post H]. injection H as H1 _. now elim Hcd.
Qed.

Lemma includes_unfold : forall s sub,
  includes s sub
  = if prefix sub s then true
    else match s with
         | EmptyString => false
         | String _ rest => includes rest sub
         end.
Proof. intros [|c s] sub; reflexivity. Qed.

(** [includes] is the substring test. *)
Lemma includes_substring : forall s sub,
  includes s sub = true <-> exists pre post, s = pre ++ sub ++ post.
Proof.
  induction s as [|c s IH]; intros sub; rewrite includes_unfold;
    destruct (prefix sub _) eqn:Hp.
  - split; [intros _|reflexivity].
    apply prefix_app in Hp as [post Hp]. now exists "", post.
  - split; [discriminate|].
    intros [[|d pre] [post H]]; [|discriminate].
    simpl in H. assert (prefix sub "" = true) by (apply prefix_app; eauto).
    congruence.
  - split; [intros _|reflexivity].
    apply prefix_app in Hp as [post Hp]. now exists "", post.
  - split.
    + intros H. apply IH in H as (pre & post & ->).
      now exists (String c pre), post.
    + intros ([|d pre] & post & H).
      * simpl in H. assert (prefix sub (String c s) = true)
          by (apply prefix_app; eauto). congruence.
      * injection H as _ H. apply IH. eauto.
Qed.

Lemma truthy_Some : forall field s,
  truthy field = Some s <-> field = Some s /\ s <> "".
Proof.
  intros [t|] s; simpl.
  - destruct (String.eqb_spec t ""); split.
    + discriminate.
    + intros [[= ->] H]. contradiction.
    + intros [= ->]. auto.
    + intros [[= ->] _]. reflexivity.
  - split; [discriminate | intros [H _]; discriminate].
Qed.

Lemma truthy_None : forall field,
  truthy field = None <-> field = None \/ field = Some "".
Proof.
  intros [t|]; simpl.
  - destruct (String.eqb_spec t "") as [->|Hne].
    + split; auto.
    + split; [discriminate|].
      intros [H|[= H]]; [discriminate | contradiction].
  - split; auto.
Qed.

Example asciiParseInt_samples :
  asciiParseInt "50" = Num 50
  /\ asciiParseInt "  -0x1f" = Num (-31)
  /\ asciiParseInt "12px" = Num 12
  /\ asciiParseInt "soon" = NaN
  /\ asciiParseInt "" = NaN.
Proof. repeat split. Qed.

Example includes_samples :
  includes "Hello World" "Hello" = true
  /\ includes "Hello World" "Goodbye" = false
  /\ includes "Hello World" "" = true.
Proof. repeat split. Qed.

Example toLowerCase_samples :
  toLowerCase "Calculator" = "calculator"
  /\ toLowerCase "Notepad++ 8" = "notepad++ 8".
Proof. repeat split. Qed.

(** ** The monad *)

Lemma try_catch_rethrow : forall S A (m : M S A) s,
  try_catch m (fun error => throw error) s = m s.
Proof.
  intros S A m s. unfold try_catch, throw.
  destruct (m s) as [[a|error] s']; reflexivity.
Qed.

Section Properties.

Variables World Handle : Type.
Variable client : DesktopUse.Client World Handle.
Variable host : Host.t World.

Local Abbreviation Env := (Env.t World Handle).
Local Abbreviation Frame := (Frame.t World Handle).
Local Abbreviation launchApp := (TestRunner.launchApp client host).
Local Abbreviation findElement := (TestRunner.findElement client).
Local Abbreviation executeStep := (TestRunner.executeStep client host).
Local Abbreviation forOfSteps := (TestRunner.forOfSteps client host).
Local Abbreviation executeTestCase := (TestRunner.executeTestCase client host).
Local Abbreviation stepsSucceed := (TestRunner.stepsSucceed client host).
Local Abbreviation firstFailure := (TestRunner.firstFailure client host).
Local Abbreviation readClock := (TestRunner.readClock host).
Local Abbreviation tick := (TestRunner.tick host).
Local Abbreviation located := (TestRunner.located client).
Local Abbreviation openAndSettle := (TestRunner.openAndSettle client host).

Lemma newDate_run : forall e : Env,
  TestRunner.newDate host e = (Returned (readClock e), tick e).
Proof.
  intros e. unfold TestRunner.newDate, TestRunner.readClock, TestRunner.tick.
  destruct (Host.clock host (Env.world e)); reflexivity.
Qed.

(** ** The loop over the steps *)

Lemma forOfSteps_cons_pass : forall step rest (e e1 : Env) r,
  executeStep step e = (Returned tt, e1) ->
  forOfSteps (step :: rest) (Frame.mk e r)
  = forOfSteps rest (Frame.mk e1 (TestResult.push_step (passed step) r)).
Proof.
  intros step rest e e1 r H. simpl.
  unfold bind at 1, try_catch, bind at 1, TestRunner.liftEnv at 1. simpl.
  rewrite H. reflexivity.
Qed.

Lemma forOfSteps_cons_fail : forall step rest (e e' : Env) error message r,
  executeStep step e = (Threw error, e') ->
  errorMessageOf error = Returned message ->
  forOfSteps (step :: rest) (Frame.mk e r)
  = (Returned tt,
     Frame.mk e'
       (TestResult.set_error (stepFailedMessage step message)
          (TestResult.set_status FAIL
             (TestResult.push_step (failed step message) r)))).
Proof.
  intros step rest e e' error message r H Hmessage. simpl.
  unfold bind at 1, try_catch, bind at 1, TestRunner.liftEnv at 1. simpl.
  rewrite H. unfold bind at 1, evaluate. rewrite Hmessage. reflexivity.
Qed.

(** The step handler itself throws when the message of the error cannot
    be computed: the loop is left by that throw, with no result pushed. *)
Lemma forOfSteps_cons_rethrow : forall step rest (e e' : Env) error raised r,
  executeStep step e = (Threw error, e') ->
  errorMessageOf error = Threw raised ->
  forOfSteps (step :: rest) (Frame.mk e r) = (Threw raised, Frame.mk e' r).
Proof.
  intros step rest e e' error raised r H Hmessage. simpl.
  unfold bind at 1, try_catch, bind at 1, TestRunner.liftEnv at 1. simpl.
  rewrite H. unfold bind at 1, evaluate. rewrite Hmessage. reflexivity.
Qed.

Lemma forOfSteps_all_pass : forall steps (e e' : Env),
  stepsSucceed steps e e' ->
  forall r,
    forOfSteps steps (Frame.mk e r)
    = (Returned tt, Frame.mk e' (recorded (map passed steps) r)).
Proof.
  induction 1 as [e|step rest e e1 e' Hstep _ IH]; intros r.
  - simpl. unfold ret, recorded. rewrite app_nil_r. now destruct r.
  - rewrite (forOfSteps_cons_pass _ _ _ _ _ Hstep), IH.
    unfold recorded, TestResult.push_step. simpl.
    now rewrite <- app_assoc.
Qed.

Lemma forOfSteps_first_failure : forall steps (e : Env) k step error e',
  firstFailure steps e k step error e' ->
  forall r,
    forOfSteps steps (Frame.mk e r)
    = match errorMessageOf error with
      | Returned message =>
          (Returned tt,
           Frame.mk e'
             (TestResult.set_error (stepFailedMessage step message)
                (TestResult.set_status FAIL
                   (recorded
                      (map passed (firstn k steps) ++ [failed step message])
                      r))))
      | Threw raised =>
          (Threw raised, Frame.mk e' (recorded (map passed (firstn k steps)) r))
      end.
Proof.
  induction 1 as [step rest e error e' Hstep
                 |first rest e e1 k step error e' Hstep _ IH]; intros r.
  - destruct (errorMessageOf error) as [message|raised] eqn:Hmessage.
    + rewrite (forOfSteps_cons_fail _ _ _ _ _ _ _ Hstep Hmessage). reflexivity.
    + rewrite (forOfSteps_cons_rethrow _ _ _ _ _ _ _ Hstep Hmessage).
      unfold recorded. simpl. rewrite app_nil_r. now destruct r.
  - rewrite (forOfSteps_cons_pass _ _ _ _ _ Hstep), IH.
    destruct (errorMessageOf error) as [message|raised];
      unfold recorded, TestResult.push_step, TestResult.set_status,
        TestResult.set_error; simpl; now rewrite <- app_assoc.
Qed.

Lemma firstFailure_nth : forall steps (e : Env) k step error e',
  firstFailure steps e k step error e' ->
  nth_error steps k = Some step /\ (k < length steps)%nat.
Proof.
  induction 1 as [|first rest e e1 k step error e' _ _ [IH1 IH2]]; simpl.
  - split; [reflexivity | lia].
  - split; [assumption | lia].
Qed.

(** Run from any state, a list of steps either succeeds to the end or has
    a first failing step. *)
Lemma steps_succeed_or_fail : forall steps (e : Env),
  (exists e', stepsSucceed steps e e')
  \/ (exists k step error e', firstFailure steps e k step error e').
Proof.
  induction steps as [|first rest IH]; intros e.
  - left. exists e. constructor.
  - destruct (executeStep first e) as [[[]|error] e1] eqn:Hfirst.
    + destruct (IH e1) as [[e' H]|(k & step & error & e' & H)].
      * left. exists e'. econstructor; eassumption.
      * right. exists (S k), step, error, e'. econstructor; eassumption.
    + right. exists 0%nat, first, error, e1. now constructor.
Qed.

(** ** [executeTestCase], path by path *)

Lemma executeTestCase_launch_throws : forall tc (e eL : Env) error,
  launchApp (TestCase.application tc) (tick (tick e)) = (Threw error, eL) ->
  executeTestCase tc e
  = match errorMessageOf error with
    | Returned message =>
        (Returned
           (TestResult.mk tc ERROR (readClock e) (readClock eL)
              (readClock eL - readClock e) []
              (Some ("Test execution error: " ++ message))),
         tick eL)
    | Threw raised => (Threw raised, eL)
    end.
Proof.
  intros tc e eL error H.
  unfold TestRunner.executeTestCase, bind at 1. rewrite newDate_run.
  unfold bind at 1. rewrite newDate_run.
  unfold TestRunner.withResult, bind at 1, try_catch, bind at 1,
    TestRunner.liftEnv at 1.
  cbn [Frame.env Frame.result]. rewrite H.
  unfold bind at 1, evaluate.
  destruct (errorMessageOf error) as [message|raised]; [|reflexivity].
  unfold bind, TestRunner.updateResult, TestRunner.liftEnv,
    TestRunner.readResult. cbn [Frame.env Frame.result].
  rewrite newDate_run. reflexivity.
Qed.

Lemma executeTestCase_loop_returns : forall tc (e eL eF : Env) r,
  launchApp (TestCase.application tc) (tick (tick e)) = (Returned tt, eL) ->
  forOfSteps (TestCase.steps tc)
    (Frame.mk eL
       (TestResult.mk tc PASS (readClock e) (readClock (tick e)) 0 [] None))
  = (Returned tt, Frame.mk eF r) ->
  executeTestCase tc e
  = (Returned
       (TestResult.mk (TestResult.testCase r) (TestResult.status r)
          (TestResult.startTime r) (readClock eF)
          (readClock eF - TestResult.startTime r)
          (TestResult.steps r) (TestResult.error r)),
     tick eF).
Proof.
  intros tc e eL eF r Hlaunch Hloop.
  unfold TestRunner.executeTestCase, bind at 1. rewrite newDate_run.
  unfold bind at 1. rewrite newDate_run.
  unfold TestRunner.withResult, bind at 1, try_catch, bind at 1,
    TestRunner.liftEnv at 1.
  cbn [Frame.env Frame.result]. rewrite Hlaunch, Hloop.
  unfold bind, TestRunner.updateResult, TestRunner.liftEnv,
    TestRunner.readResult. cbn [Frame.env Frame.result].
  rewrite newDate_run. reflexivity.
Qed.

Lemma executeTestCase_all_pass : forall tc (e eL eN : Env),
  launchApp (TestCase.application tc) (tick (tick e)) = (Returned tt, eL) ->
  stepsSucceed (TestCase.steps tc) eL eN ->
  executeTestCase tc e
  = (Returned
       (TestResult.mk tc PASS (readClock e) (readClock eN)
          (readClock eN - readClock e) (map passed (TestCase.steps tc)) None),
     tick eN).
Proof.
  intros tc e eL eN Hlaunch Hsteps.
  rewrite (executeTestCase_loop_returns tc e eL eN _ Hlaunch
             (forOfSteps_all_pass _ _ _ Hsteps _)).
  reflexivity.
Qed.

(** When the loop is left by a throw, the outer handler runs on the result
    as the loop left it; it throws in turn when the message of what it
    caught cannot be computed, and then nothing is returned. *)
Lemma executeTestCase_loop_throws : forall tc (e eL eF : Env) raised r,
  launchApp (TestCase.application tc) (tick (tick e)) = (Returned tt, eL) ->
  forOfSteps (TestCase.steps tc)
    (Frame.mk eL
       (TestResult.mk tc PASS (readClock e) (readClock (tick e)) 0 [] None))
  = (Threw raised, Frame.mk eF r) ->
  executeTestCase tc e
  = match errorMessageOf raised with
    | Returned message =>
        (Returned
           (TestResult.mk (TestResult.testCase r) ERROR
              (TestResult.startTime r) (readClock eF)
              (readClock eF - TestResult.startTime r)
              (TestResult.steps r)
              (Some ("Test execution error: " ++ message))),
         tick eF)
    | Threw raised' => (Threw raised', eF)
    end.
Proof.
  intros tc e eL eF raised r Hlaunch Hloop.
  unfold TestRunner.executeTestCase, bind at 1. rewrite newDate_run.
  unfold bind at 1. rewrite newDate_run.
  unfold TestRunner.withResult, bind at 1, try_catch, bind at 1,
    TestRunner.liftEnv at 1.
  cbn [Frame.env Frame.result]. rewrite Hlaunch, Hloop.
  unfold bind at 1, evaluate.
  destruct (errorMessageOf raised) as [message|raised']; [|reflexivity].
  unfold bind, TestRunner.updateResult, TestRunner.liftEnv,
    TestRunner.readResult. cbn [Frame.env Frame.result].
  rewrite newDate_run. reflexivity.
Qed.

Lemma executeTestCase_step_throws : forall tc (e eL eF : Env) k step error,
  launchApp (TestCase.application tc) (tick (tick e)) = (Returned tt, eL) ->
  firstFailure (TestCase.steps tc) eL k step error eF ->
  executeTestCase tc e
  = match errorMessageOf error with
    | Returned message =>
        (Returned
           (TestResult.mk tc FAIL (readClock e) (readClock eF)
              (readClock eF - readClock e)
              (map passed (firstn k (TestCase.steps tc))
               ++ [failed step message])
              (Some (stepFailedMessage step message))),
         tick eF)
    | Threw raised =>
        match errorMessageOf raised with
        | Returned message =>
            (Returned
               (TestResult.mk tc ERROR (readClock e) (readClock eF)
                  (readClock eF - readClock e)
                  (map passed (firstn k (TestCase.steps tc)))
                  (Some ("Test execution error: " ++ message))),
             tick eF)
        | Threw raised' => (Threw raised', eF)
        end
    end.
Proof.
  intros tc e eL eF k step error Hlaunch Hsteps.
  pose proof (forOfSteps_first_failure _ _ _ _ _ _ Hsteps
                (TestResult.mk tc PASS (readClock e) (readClock (tick e))
                   0 [] None)) as Hloop.
  destruct (errorMessageOf error) as [message|raised].
  - rewrite (executeTestCase_loop_returns tc e eL eF _ Hlaunch Hloop).
    reflexivity.
  - rewrite (executeTestCase_loop_throws tc e eL eF _ _ Hlaunch Hloop).
    reflexivity.
Qed.

(** The same run when the message of the step's error can be computed. *)
Lemma executeTestCase_step_fails : forall tc (e eL eF : Env) k step error message,
  launchApp (TestCase.application tc) (tick (tick e)) = (Returned tt, eL) ->
  firstFailure (TestCase.steps tc) eL k step error eF ->
  errorMessageOf error = Returned message ->
  executeTestCase tc e
  = (Returned
       (TestResult.mk tc FAIL (readClock e) (readClock eF)
          (readClock eF - readClock e)
          (map passed (firstn k (TestCase.steps tc)) ++ [failed step message])
          (Some (stepFailedMessage step message))),
     tick eF).
Proof.
  intros tc e eL eF k step error message Hlaunch Hsteps Hmessage.
  rewrite (executeTestCase_step_throws _ _ _ _ _ _ _ Hlaunch Hsteps).
  now rewrite Hmessage.
Qed.

Lemma launchApp_unit : forall appName (e : Env),
  (exists eL, launchApp appName e = (Returned tt, eL))
  \/ (exists error eL, launchApp appName e = (Threw error, eL)).
Proof.
  intros appName e.
  destruct (launchApp appName e) as [[[]|error] eL]; eauto.
Qed.

Lemma length_passed_firstn : forall k steps,
  (k < length steps)%nat ->
  length (map passed (firstn k steps)) = k.
Proof.
  intros k steps H. rewrite length_map, length_firstn. lia.
Qed.

Lemma Forall_passed : forall steps,
  Forall (fun sr => StepResult.status sr = PASS) (map passed steps).
Proof.
  intros steps. apply Forall_forall. intros sr Hin.
  apply in_map_iff in Hin as (step & <- & _). reflexivity.
Qed.

Lemma step_of_passed : forall steps, map StepResult.step (map passed steps) = steps.
Proof.
  induction steps as [|step rest IH]; simpl; [reflexivity | now rewrite IH].
Qed.

Lemma firstn_snoc : forall (A : Type) (l : list A) k x,
  nth_error l k = Some x -> firstn (S k) l = (firstn k l ++ [x])%list.
Proof.
  intros A. induction l as [|a l IH]; intros [|k] x H; try discriminate.
  - now injection H as ->.
  - simpl in H. apply IH in H. simpl in *. now rewrite H.
Qed.

(** Whatever the path, the recorded steps are an initial segment of the
    declared ones. *)
Lemma recorded_steps_prefix : forall (A : Type) (declared : list A) n i x,
  nth_error (firstn n declared) i = Some x -> nth_error declared i = Some x.
Proof.
  intros A declared n i x H. rewrite nth_error_firstn in H.
  destruct (i <? n)%nat; [assumption | discriminate].
Qed.

(** C3: when the launch succeeds and every step returns, the result has
    status PASS, one PASS step result per declared step, in order, and no
    error message. *)
Theorem executeTestCase_all_steps_pass :
  forall tc (e eL eN : Env),
    launchApp (TestCase.application tc) (tick (tick e)) = (Returned tt, eL) ->
    stepsSucceed (TestCase.steps tc) eL eN ->
    exists r,
      executeTestCase tc e = (Returned r, tick eN)
      /\ TestResult.status r = PASS
      /\ length (TestResult.steps r) = length (TestCase.steps tc)
      /\ TestResult.steps r = map passed (TestCase.steps tc)
      /\ Forall (fun sr => StepResult.status sr = PASS) (TestResult.steps r)
      /\ TestResult.error r = None.
Proof.
  intros tc e eL eN Hlaunch Hsteps.
  eexists. split; [exact (executeTestCase_all_pass _ _ _ _ Hlaunch Hsteps)|].
  cbn [TestResult.steps TestResult.status TestResult.error].
  repeat split.
  - apply length_map.
  - apply Forall_passed.
Qed.

(** The paths of a run that returns a result: every step passed; a step
    failed and the message of its error was computed; a step failed, the
    step handler threw and the outer handler computed a message; the launch
    failed and the outer handler computed a message.  On the paths left out
    the outer handler throws and [executeTestCase] returns nothing. *)
Ltac returned_run tc e Hrun :=
  let eL := fresh "eL" in
  let Hlaunch := fresh "Hlaunch" in
  let error := fresh "error" in
  let message := fresh "message" in
  let raised := fresh "raised" in
  destruct (launchApp_unit (TestCase.application tc) (tick (tick e)))
    as [[eL Hlaunch]|(error & eL & Hlaunch)];
  [ let eN := fresh "eN" in
    let Hsteps := fresh "Hsteps" in
    let k := fresh "k" in
    let step := fresh "step" in
    let eF := fresh "eF" in
    let Hfail := fresh "Hfail" in
    destruct (steps_succeed_or_fail (TestCase.steps tc) eL)
      as [[eN Hsteps]|(k & step & error & eF & Hfail)];
    [ rewrite (executeTestCase_all_pass _ _ _ _ Hlaunch Hsteps) in Hrun
    | rewrite (executeTestCase_step_throws _ _ _ _ _ _ _ Hlaunch Hfail) in Hrun;
      destruct (errorMessageOf error) as [message|raised];
      [ | destruct (errorMessageOf raised) as [message|];
          [ | discriminate Hrun ] ] ]
  | rewrite (executeTestCase_launch_throws _ _ _ _ Hlaunch) in Hrun;
    destruct (errorMessageOf error) as [message|raised];
    [ | discriminate Hrun ] ];
  injection Hrun as <- <-.

(** C5: every result that is returned carries its test case, has at most as many step
    results as the test case has steps, records at each index the declared
    step of that index, and has [duration = endTime - startTime]. *)
Theorem executeTestCase_result_invariant :
  forall tc (e : Env) r e',
    executeTestCase tc e = (Returned r, e') ->
    TestResult.testCase r = tc
    /\ (length (TestResult.steps r) <= length (TestCase.steps tc))%nat
    /\ map StepResult.step (TestResult.steps r)
       = firstn (length (TestResult.steps r)) (TestCase.steps tc)
    /\ (forall i sr,
           nth_error (TestResult.steps r) i = Some sr ->
           nth_error (TestCase.steps tc) i = Some (StepResult.step sr))
    /\ TestResult.duration r
       = (TestResult.endTime r - TestResult.startTime r)%Z.
Proof.
  intros tc e r e' Hrun.
  assert (Hidx : forall rs : list StepResult.t,
             map StepResult.step rs = firstn (length rs) (TestCase.steps tc) ->
             (length rs <= length (TestCase.steps tc))%nat
             /\ map StepResult.step rs = firstn (length rs) (TestCase.steps tc)
             /\ forall i sr, nth_error rs i = Some sr ->
                  nth_error (TestCase.steps tc) i = Some (StepResult.step sr)).
  { intros rs Hrs. split; [|split; [assumption|]].
    - apply (f_equal (@length _)) in Hrs.
      rewrite length_map, length_firstn in Hrs. lia.
    - intros i sr Hi.
      apply (recorded_steps_prefix _ _ (length rs)). rewrite <- Hrs.
      now apply map_nth_error. }
  returned_run tc e Hrun;
    cbn [TestResult.testCase TestResult.steps TestResult.duration
         TestResult.endTime TestResult.startTime].
  - destruct (Hidx (map passed (TestCase.steps tc))) as (Hle & Hmap & Hnth).
    { now rewrite step_of_passed, length_map, firstn_all. }
    auto 6.
  - destruct (firstFailure_nth _ _ _ _ _ _ Hfail) as [Hstep Hlt].
    pose proof (length_passed_firstn k _ Hlt) as Hlen.
    destruct (Hidx (map passed (firstn k (TestCase.steps tc))
                    ++ [failed step message])%list) as (Hle & Hmap & Hnth).
    { rewrite length_app, Hlen, map_app, step_of_passed. simpl.
      rewrite Nat.add_1_r. symmetry. now apply firstn_snoc. }
    auto 6.
  - destruct (firstFailure_nth _ _ _ _ _ _ Hfail) as [Hstep Hlt].
    pose proof (length_passed_firstn k _ Hlt) as Hlen.
    destruct (Hidx (map passed (firstn k (TestCase.steps tc))))
      as (Hle & Hmap & Hnth).
    { now rewrite Hlen, step_of_passed. }
    auto 6.
  - destruct (Hidx []) as (Hle & Hmap & Hnth); [reflexivity|].
    auto 6.
Qed.

(** ** The primitives *)

Lemma findElement_run : forall selector (e : Env),
  findElement selector e
  = let (answer, w) := DesktopUse.locator client selector (Env.world e) in
    (answer, Env.mk w (Env.trace e ++ [Locator selector])).
Proof.
  intros selector e. unfold TestRunner.findElement.
  now rewrite try_catch_rethrow.
Qed.

(** Locating and then operating, as every element method does. *)
Lemma on_element_run : forall A (selector : string)
    (request : Handle -> Event Handle)
    (op : Handle -> World -> outcome A * World) (e : Env),
  bind (findElement selector)
       (fun element => TestRunner.remote (request element) (op element)) e
  = located selector request op e.
Proof.
  intros A selector request op e.
  unfold bind, TestRunner.located. rewrite findElement_run.
  destruct (DesktopUse.locator client selector (Env.world e))
    as [[element|error] w]; [|reflexivity].
  unfold TestRunner.remote. cbn [Env.world Env.trace].
  destruct (op element w) as [answer w']. now rewrite <- app_assoc.
Qed.

Lemma launchApp_run : forall appName (e : Env),
  launchApp appName e
  = openAndSettle
      (if (toLowerCase appName =? "calculator")%string then "calc" else appName) e.
Proof.
  intros appName e. unfold TestRunner.launchApp.
  rewrite try_catch_rethrow.
  unfold bind, TestRunner.remote, TestRunner.openAndSettle, TestRunner.sleep.
  destruct (DesktopUse.openApplication client _ (Env.world e))
    as [[[]|error] w]; [|reflexivity].
  cbn [Env.world Env.trace]. now rewrite <- app_assoc.
Qed.

Lemma clickElement_run : forall selector (e : Env),
  TestRunner.clickElement client selector e
  = located selector Click (DesktopUse.click client) e.
Proof.
  intros. unfold TestRunner.clickElement.
  now rewrite try_catch_rethrow, on_element_run.
Qed.

Lemma typeText_run : forall selector text (e : Env),
  TestRunner.typeText client selector text e
  = located selector (fun h => TypeText h text)
      (fun h => DesktopUse.typeText client h text) e.
Proof.
  intros. unfold TestRunner.typeText.
  now rewrite try_catch_rethrow, on_element_run.
Qed.

Lemma pressKey_run : forall selector key (e : Env),
  TestRunner.pressKey client selector key e
  = located selector (fun h => PressKey h key)
      (fun h => DesktopUse.pressKey client h key) e.
Proof.
  intros. unfold TestRunner.pressKey.
  now rewrite try_catch_rethrow, on_element_run.
Qed.

Lemma getText_run : forall selector (e : Env),
  TestRunner.getText client selector e
  = match located selector GetText (DesktopUse.getText client) e with
    | (Returned response, e') => (Returned (DesktopUse.text response), e')
    | (Threw error, e') => (Threw error, e')
    end.
Proof.
  intros selector e. unfold TestRunner.getText.
  rewrite try_catch_rethrow.
  unfold bind at 1, TestRunner.located. rewrite findElement_run.
  destruct (DesktopUse.locator client selector (Env.world e))
    as [[element|error] w]; [|reflexivity].
  unfold bind, TestRunner.remote, ret. cbn [Env.world Env.trace].
  destruct (DesktopUse.getText client element w) as [[response|error] w'];
    now rewrite <- app_assoc.
Qed.

Lemma verifyElementVisible_run : forall selector (e : Env),
  TestRunner.verifyElementVisible client selector e
  = match located selector IsVisible (DesktopUse.isVisible client) e with
    | (Returned visible, e') => (Returned visible, e')
    | (Threw _, e') => (Returned false, e')
    end.
Proof.
  intros selector e. unfold TestRunner.verifyElementVisible, try_catch.
  now rewrite on_element_run.
Qed.

(** ** [executeStep], action by action *)

Lemma verify_step_run : forall step selector value (e : Env),
  TestStep.action step = "verify" ->
  truthy (TestStep.selector step) = Some selector ->
  truthy (TestStep.value step) = Some value ->
  executeStep step e
  = match TestRunner.getText client selector e with
    | (Returned text, e') =>
        if includes text value then (Returned tt, e')
        else (Threw (ErrorObj (verificationFailedMessage value text)), e')
    | (Threw error, e') => (Threw error, e')
    end.
Proof.
  intros step selector value e Haction Hselector Hvalue.
  unfold TestRunner.executeStep. rewrite Haction, Hselector, Hvalue.
  cbn [String.eqb Ascii.eqb Bool.eqb]. unfold bind.
  destruct (TestRunner.getText client selector e) as [[text|error] e'];
    [|reflexivity].
  destruct (includes text value); reflexivity.
Qed.

Lemma wait_step_run : forall step (e : Env),
  TestStep.action step = "wait" ->
  executeStep step e
  = TestRunner.sleep host
      (match truthy (TestStep.value step) with
       | Some value => Host.parseInt host value
       | None => Num 1000
       end) e.
Proof.
  intros step e Haction. unfold TestRunner.executeStep. now rewrite Haction.
Qed.

(** C6 (amended): for a verify step whose selector and value are present
    and not the empty string, [executeStep] returns exactly when [getText]
    on the selector returns a text that has the value as a substring; when
    the text lacks it, the step throws the verification error, whose message
    quotes the expected value and the actual text; when [getText] throws,
    the step throws the same error. *)
Theorem executeStep_verify :
  forall step selector value (e : Env),
    TestStep.action step = "verify" ->
    TestStep.selector step = Some selector -> selector <> "" ->
    TestStep.value step = Some value -> value <> "" ->
    ((exists e', executeStep step e = (Returned tt, e'))
     <-> (exists text e',
            TestRunner.getText client selector e = (Returned text, e')
            /\ exists pre post, text = pre ++ value ++ post))
    /\ (forall text e',
          TestRunner.getText client selector e = (Returned text, e') ->
          includes text value = true ->
          executeStep step e = (Returned tt, e'))
    /\ (forall text e',
          TestRunner.getText client selector e = (Returned text, e') ->
          includes text value = false ->
          executeStep step e
          = (Threw (ErrorObj ("Verification failed. Expected text containing "
                              ++ dquote ++ value ++ dquote ++ " but got "
                              ++ dquote ++ text ++ dquote)), e'))
    /\ (forall error e',
          TestRunner.getText client selector e = (Threw error, e') ->
          executeStep step e = (Threw error, e')).
Proof.
  intros step selector value e Haction Hsel Hsel_ne Hval Hval_ne.
  assert (Hrun := verify_step_run step selector value e Haction
                    (proj2 (truthy_Some _ _) (conj Hsel Hsel_ne))
                    (proj2 (truthy_Some _ _) (conj Hval Hval_ne))).
  rewrite Hrun. clear Hrun.
  destruct (TestRunner.getText client selector e) as [[text|error] e1].
  - destruct (includes text value) eqn:Hinc.
    + split; [|split; [|split]].
      * split; [intros _|eauto].
        exists text, e1. split; [reflexivity|].
        now apply includes_substring.
      * now intros ? ? [= <- <-] _.
      * intros ? ? [= <- <-]. congruence.
      * discriminate.
    + split; [|split; [|split]].
      * split; [intros [? H]; discriminate|].
        intros (text' & e' & [= <- <-] & Hsub).
        apply includes_substring in Hsub. congruence.
      * intros ? ? [= <- <-]. congruence.
      * now intros ? ? [= <- <-] _.
      * discriminate.
  - split; [|split; [|split]]; try discriminate.
    + split; [intros [? H]; discriminate|].
      intros (text' & e' & H & _). discriminate.
    + now intros ? ? [= <- <-].
Qed.

(** C8 (amended): a wait step never fails, and the loop records PASS for
    it and goes on.  It asks for a delay of [parseInt value] when a value
    other than the empty string is given, and of 1000 when the value is
    absent or the empty string.  When [parseInt] gives [NaN] for a
    non-empty value, the delay asked for is [NaN] and the step still
    returns; it is then a no-op in effect: nothing is sent to the client,
    and the world only moves as the timer moves it for a [NaN] delay. *)
Theorem executeStep_wait :
  forall step (e : Env),
    TestStep.action step = "wait" ->
    (exists e',
        executeStep step e = (Returned tt, e')
        /\ forall rest r,
            forOfSteps (step :: rest) (Frame.mk e r)
            = forOfSteps rest
                (Frame.mk e'
                   (TestResult.push_step (StepResult.mk step PASS None) r)))
    /\ (forall value,
          TestStep.value step = Some value -> value <> "" ->
          executeStep step e
          = (Returned tt,
             Env.mk (Host.elapse host (Host.parseInt host value) (Env.world e))
               (Env.trace e ++ [Sleep (Host.parseInt host value)])))
    /\ (TestStep.value step = None \/ TestStep.value step = Some "" ->
          executeStep step e
          = (Returned tt,
             Env.mk (Host.elapse host (Num 1000) (Env.world e))
               (Env.trace e ++ [Sleep (Num 1000)])))
    /\ (forall value,
          TestStep.value step = Some value -> value <> "" ->
          Host.parseInt host value = NaN ->
          executeStep step e
          = (Returned tt,
             Env.mk (Host.elapse host NaN (Env.world e))
               (Env.trace e ++ [Sleep NaN]))
          /\ (Host.elapse host NaN (Env.world e) = Env.world e ->
              Env.world (snd (executeStep step e)) = Env.world e)).
Proof.
  intros step e Haction. rewrite (wait_step_run step e Haction).
  split; [|split; [|split]].
  - eexists. split; [reflexivity|]. intros rest r.
    apply forOfSteps_cons_pass. now apply wait_step_run.
  - intros value Hval Hne.
    now rewrite (proj2 (truthy_Some _ _) (conj Hval Hne)).
  - intros H. now rewrite (proj2 (truthy_None _) H).
  - intros value Hval Hne Hnan.
    rewrite (proj2 (truthy_Some _ _) (conj Hval Hne)), Hnan.
    split; [reflexivity|]. intros Hidle. exact Hidle.
Qed.

(** C9: presence is tested by truthiness.  A click, type or verify step
    whose selector is the empty string throws the missing-selector error of
    its action; a type or verify step whose value is the empty string throws
    the missing-selector error if its selector is falsy too and the
    missing-value error otherwise.  In each case the state is untouched: no
    request reaches the collaborator. *)
Theorem executeStep_empty_field_is_missing :
  forall step (e : Env),
    (TestStep.selector step = Some "" ->
       (TestStep.action step = "click" ->
          executeStep step e
          = (Threw (ErrorObj ("Missing selector for click action in step: "
                              ++ TestStep.description step)), e))
       /\ (TestStep.action step = "type" ->
          executeStep step e
          = (Threw (ErrorObj ("Missing selector for type action in step: "
                              ++ TestStep.description step)), e))
       /\ (TestStep.action step = "verify" ->
          executeStep step e
          = (Threw (ErrorObj ("Missing selector for verify action in step: "
                              ++ TestStep.description step)), e)))
    /\ (TestStep.value step = Some "" ->
       (TestStep.action step = "type" ->
          executeStep step e
          = (Threw (ErrorObj
                      (match truthy (TestStep.selector step) with
                       | None => "Missing selector for type action in step: "
                       | Some _ => "Missing value for type action in step: "
                       end ++ TestStep.description step)), e))
       /\ (TestStep.action step = "verify" ->
          executeStep step e
          = (Threw (ErrorObj
                      (match truthy (TestStep.selector step) with
                       | None => "Missing selector for verify action in step: "
                       | Some _ =>
                           "Missing expected value for verify action in step: "
                       end ++ TestStep.description step)), e))).
Proof.
  intros step e. split.
  - intros Hsel. repeat split; intros Haction;
      unfold TestRunner.executeStep; rewrite Haction, Hsel; reflexivity.
  - intros Hval. split; intros Haction;
      unfold TestRunner.executeStep; rewrite Haction, Hval;
      cbn [String.eqb Ascii.eqb Bool.eqb];
      destruct (truthy (TestStep.selector step)); reflexivity.
Qed.

(** C7: [verifyElementVisible] always returns: [false] when locating the
    element throws or when the visibility check throws, the collaborator's
    boolean when the check returns.  The other primitives pass a thrown
    error of the collaborator on to their caller. *)
Theorem primitives_error_policy :
  (forall selector (e : Env),
      exists visible e',
        TestRunner.verifyElementVisible client selector e = (Returned visible, e'))
  /\ (forall selector (e : Env) error w,
        DesktopUse.locator client selector (Env.world e) = (Threw error, w) ->
        TestRunner.verifyElementVisible client selector e
        = (Returned false, Env.mk w (Env.trace e ++ [Locator selector])))
  /\ (forall selector (e : Env) element w answer w',
        DesktopUse.locator client selector (Env.world e) = (Returned element, w) ->
        DesktopUse.isVisible client element w = (answer, w') ->
        TestRunner.verifyElementVisible client selector e
        = (Returned match answer with
                    | Returned visible => visible
                    | Threw _ => false
                    end,
           Env.mk w' (Env.trace e ++ [Locator selector; IsVisible element])))
  /\ (forall appName (e : Env) error e',
        openAndSettle
          (if (toLowerCase appName =? "calculator")%string then "calc" else appName) e
        = (Threw error, e') ->
        launchApp appName e = (Threw error, e'))
  /\ (forall selector (e : Env) error e',
        located selector Click (DesktopUse.click client) e = (Threw error, e') ->
        TestRunner.clickElement client selector e = (Threw error, e'))
  /\ (forall selector text (e : Env) error e',
        located selector (fun h => TypeText h text)
          (fun h => DesktopUse.typeText client h text) e = (Threw error, e') ->
        TestRunner.typeText client selector text e = (Threw error, e'))
  /\ (forall selector (e : Env) error e',
        located selector GetText (DesktopUse.getText client) e = (Threw error, e') ->
        TestRunner.getText client selector e = (Threw error, e'))
  /\ (forall selector key (e : Env) error e',
        located selector (fun h => PressKey h key)
          (fun h => DesktopUse.pressKey client h key) e = (Threw error, e') ->
        TestRunner.pressKey client selector key e = (Threw error, e')).
Proof.
  repeat split.
  - intros selector e. rewrite verifyElementVisible_run.
    destruct (located selector IsVisible (DesktopUse.isVisible client) e)
      as [[visible|error] e']; eauto.
  - intros selector e error w H. rewrite verifyElementVisible_run.
    unfold TestRunner.located. now rewrite H.
  - intros selector e element w answer w' Hlocate Hvisible.
    rewrite verifyElementVisible_run. unfold TestRunner.located.
    rewrite Hlocate, Hvisible. now destruct answer.
  - intros appName e error e' H. now rewrite launchApp_run.
  - intros selector e error e' H. now rewrite clickElement_run.
  - intros selector text e error e' H. now rewrite typeText_run.
  - intros selector e error e' H. now rewrite getText_run, H.
  - intros selector key e error e' H. now rewrite pressKey_run.
Qed.

(** C10: the alias test of [launchApp] ignores case.  A name whose
    lowercasing is [calculator], such as [Calculator] or [CALCULATOR], has
    the open requested for [calc]; any other name has it requested for the
    name as given. *)
Theorem launchApp_alias :
  forall appName (e : Env),
    (toLowerCase appName = "calculator" ->
       launchApp appName e = openAndSettle "calc" e
       /\ exists settle,
           Env.trace (snd (launchApp appName e))
           = (Env.trace e ++ OpenApplication "calc" :: settle)%list)
    /\ (toLowerCase appName <> "calculator" ->
       launchApp appName e = openAndSettle appName e
       /\ exists settle,
           Env.trace (snd (launchApp appName e))
           = (Env.trace e ++ OpenApplication appName :: settle)%list)
    /\ toLowerCase "Calculator" = "calculator"
    /\ toLowerCase "CALCULATOR" = "calculator".
Proof.
  intros appName e.
  assert (Htrace : forall name, exists settle,
             Env.trace (snd (openAndSettle name e))
             = (Env.trace e ++ OpenApplication name :: settle)%list).
  { intros name. unfold TestRunner.openAndSettle.
    destruct (DesktopUse.openApplication client name (Env.world e))
      as [[[]|error] w]; eexists; reflexivity. }
  rewrite launchApp_run. repeat split; try reflexivity.
  - apply String.eqb_eq in H. now rewrite H.
  - apply String.eqb_eq in H. rewrite H. apply Htrace.
  - apply String.eqb_neq in H. now rewrite H.
  - apply String.eqb_neq in H. rewrite H. apply Htrace.
Qed.

End Properties.

(** * The runner on the scripted collaborator *)

Module OnScript.
Import Script.

(** C1 on a failing input: the second step is the first to fail, with a
    thrown value that [String] cannot render.  The step handler throws while
    it computes the message, so no FAIL result is pushed; the outer handler
    turns that throw into ERROR.  The result has one step result, not two,
    and its status is ERROR, not FAIL. *)
Lemma first_failure_recorded_as_error :
  TestRunner.launchApp MoreScript.bareClient host
    (TestCase.application MoreScript.bareStepCase)
    (TestRunner.tick host (TestRunner.tick host start))
  = (Returned tt, launched)
  /\ TestRunner.firstFailure MoreScript.bareClient host
       (TestCase.steps MoreScript.bareStepCase) launched
       1 MoreScript.clickBroken MoreScript.bareObject MoreScript.afterBroken
  /\ TestRunner.executeTestCase MoreScript.bareClient host
       MoreScript.bareStepCase start
     = (Returned
          (TestResult.mk MoreScript.bareStepCase ERROR 1000 3010 2010
             [StepResult.mk clickSeven PASS None]
             (Some "Test execution error: Cannot convert object to primitive value")),
        TestRunner.tick host MoreScript.afterBroken).
Proof.
  split; [reflexivity|]. split; [|reflexivity].
  eapply TestRunner.fails_later; [vm_compute; reflexivity|].
  apply TestRunner.fails_here. reflexivity.
Qed.

(** C2 on a failing input: the launch throws a value that [String] cannot
    render.  The outer handler throws while it computes the message, so no
    result, whatever its status, is returned. *)
Lemma launch_failure_returns_no_result :
  TestRunner.launchApp MoreScript.bareClient host
    (TestCase.application MoreScript.bareLaunchCase)
    (TestRunner.tick host (TestRunner.tick host start))
  = (Threw MoreScript.bareObject, Env.mk 1010%Z [OpenApplication "nullapp"])
  /\ forall r e',
       TestRunner.executeTestCase MoreScript.bareClient host
         MoreScript.bareLaunchCase start
       <> (Returned r, e').
Proof.
  split; [reflexivity|]. intros r e' H. vm_compute in H. discriminate.
Qed.

Lemma executeTestCase_all_steps_pass_witness :
  TestRunner.launchApp client host (TestCase.application passingCase)
    (TestRunner.tick host (TestRunner.tick host start))
  = (Returned tt, launched)
  /\ TestRunner.stepsSucceed client host (TestCase.steps passingCase)
       launched afterPassing
  /\ exists r,
      TestRunner.executeTestCase client host passingCase start
      = (Returned r, TestRunner.tick host afterPassing)
      /\ TestResult.status r = PASS
      /\ length (TestResult.steps r) = 4%nat
      /\ TestResult.error r = None.
Proof.
  assert (Hlaunch : TestRunner.launchApp client host
                      (TestCase.application passingCase)
                      (TestRunner.tick host (TestRunner.tick host start))
                    = (Returned tt, launched)) by reflexivity.
  assert (Hsteps : TestRunner.stepsSucceed client host
                     (TestCase.steps passingCase) launched afterPassing).
  { repeat (eapply TestRunner.succeed_cons; [vm_compute; reflexivity|]).
    apply TestRunner.succeed_nil. }
  split; [exact Hlaunch|]. split; [exact Hsteps|].
  destruct (executeTestCase_all_steps_pass World Handle client host
              passingCase start launched afterPassing Hlaunch Hsteps)
    as (r & Hrun & Hstatus & Hlen & _ & _ & Herror).
  exists r. auto.
Defined.

(** C4 on a failing input: with the launch throwing a value that [String]
    cannot render, [executeTestCase] throws the [TypeError] of [String]; the
    only request sent is the open request. *)
Lemma executeTestCase_throws_from_its_handler :
  TestRunner.executeTestCase MoreScript.bareClient host
    MoreScript.bareLaunchCase start
  = (Threw (ErrorObj "Cannot convert object to primitive value"),
     Env.mk 1010%Z [OpenApplication "nullapp"]).
Proof. vm_compute. reflexivity. Qed.

Lemma executeTestCase_result_invariant_witness :
  exists r e',
    TestRunner.executeTestCase client host failingCase start = (Returned r, e')
    /\ (length (TestResult.steps r) <= 4)%nat
    /\ TestResult.duration r
       = (TestResult.endTime r - TestResult.startTime r)%Z.
Proof.
  destruct (TestRunner.executeTestCase client host failingCase start)
    as [[r|error] e'] eqn:Hrun; [|vm_compute in Hrun; discriminate].
  destruct (executeTestCase_result_invariant World Handle client host
              failingCase start r e' Hrun)
    as (_ & Hlen & _ & _ & Hduration).
  exists r, e'. auto.
Defined.

(** C6 as stated fails: the value of [verifyEmpty] is present (it is the
    empty string) and the text [getText] returns contains it, yet the step
    throws. *)
Lemma verify_empty_value_counterexample :
  TestStep.action verifyEmpty = "verify"
  /\ TestStep.selector verifyEmpty = Some "name:Display"
  /\ TestStep.value verifyEmpty = Some ""
  /\ TestRunner.executeStep client host verifyEmpty start
     = (Threw (ErrorObj
                 "Missing expected value for verify action in step: Anything is shown"),
        start)
  /\ ~ ((exists e',
           TestRunner.executeStep client host verifyEmpty start = (Returned tt, e'))
        <-> (exists text e',
               TestRunner.getText client "name:Display" start = (Returned text, e')
               /\ includes text "" = true)).
Proof.
  repeat split; try reflexivity.
  intros [_ H]. destruct H as [e' H]; [|discriminate].
  exists "Hello World". eexists. split; reflexivity.
Qed.

Lemma executeStep_verify_witness :
  (exists e', TestRunner.executeStep client host verifyHello start = (Returned tt, e'))
  /\ exists e',
      TestRunner.executeStep client host verifyGoodbye start
      = (Threw (ErrorObj
                  ("Verification failed. Expected text containing "
                   ++ dquote ++ "Goodbye" ++ dquote ++ " but got "
                   ++ dquote ++ "Hello World" ++ dquote)), e').
Proof.
  assert (Hne : forall c s, String c s <> "") by discriminate.
  destruct (executeStep_verify World Handle client host verifyHello
              "name:Display" "Hello" start eq_refl eq_refl (Hne _ _)
              eq_refl (Hne _ _)) as ([_ Hreturns] & _).
  destruct (executeStep_verify World Handle client host verifyGoodbye
              "name:Display" "Goodbye" start eq_refl eq_refl (Hne _ _)
              eq_refl (Hne _ _)) as (_ & _ & Hthrows & _).
  split.
  - apply Hreturns. exists "Hello World". eexists. split; [reflexivity|].
    now exists "", " World".
  - eexists. apply Hthrows; reflexivity.
Defined.

Lemma primitives_error_policy_witness :
  TestRunner.verifyElementVisible client "name:Ghost" start
  = (Returned false, Env.mk 1000%Z [Locator "name:Ghost"])
  /\ TestRunner.verifyElementVisible client "name:Stale" start
     = (Returned false, Env.mk 1000%Z [Locator "name:Stale"; IsVisible "name:Stale"])
  /\ TestRunner.verifyElementVisible client "name:Display" start
     = (Returned true, Env.mk 1000%Z [Locator "name:Display"; IsVisible "name:Display"])
  /\ TestRunner.clickElement client "name:Disabled" start
     = (Threw (NonError "click rejected"),
        Env.mk 1000%Z [Locator "name:Disabled"; Click "name:Disabled"]).
Proof.
  destruct (primitives_error_policy World Handle client host)
    as (_ & Hlocate & Hvisible & _ & Hclick & _).
  split; [|split; [|split]].
  - apply (Hlocate "name:Ghost" start (ErrorObj "Element not found") 1000%Z).
    reflexivity.
  - apply (Hvisible "name:Stale" start "name:Stale" 1000%Z
             (Threw (ErrorObj "Stale element")) 1000%Z); reflexivity.
  - apply (Hvisible "name:Display" start "name:Display" 1000%Z
             (Returned true) 1000%Z); reflexivity.
  - apply Hclick. reflexivity.
Defined.

(** C8 as stated fails: the value of [waitEmpty] is given (it is the empty
    string), [parseInt] of it is [NaN] (here as in JavaScript), yet the
    delay asked for is 1000. *)
Lemma wait_empty_value_counterexample :
  TestStep.action waitEmpty = "wait"
  /\ TestStep.value waitEmpty = Some ""
  /\ Host.parseInt host "" = NaN
  /\ TestRunner.executeStep client host waitEmpty start
     = (Returned tt, Env.mk 2000%Z [Sleep (Num 1000)])
  /\ TestRunner.executeStep client host waitEmpty start
     <> (Returned tt,
         Env.mk (Host.elapse host (Host.parseInt host "") (Env.world start))
           (Env.trace start ++ [Sleep (Host.parseInt host "")])).
Proof.
  repeat split; try reflexivity. discriminate.
Qed.

Lemma executeStep_wait_witness :
  TestRunner.executeStep client host waitFifty start
  = (Returned tt, Env.mk 1050%Z [Sleep (Num 50)])
  /\ TestRunner.executeStep client host waitEmpty start
     = (Returned tt, Env.mk 2000%Z [Sleep (Num 1000)])
  /\ TestRunner.executeStep client host
       (TestStep.mk "Settle" "wait" None (Some "soon")) start
     = (Returned tt, Env.mk 1001%Z [Sleep NaN])
  /\ TestRunner.forOfSteps client host [waitFifty]
       (Frame.mk start (TestResult.mk passingCase PASS 0 0 0 [] None))
     = (Returned tt,
        Frame.mk (Env.mk 1050%Z [Sleep (Num 50)])
          (TestResult.mk passingCase PASS 0 0 0
             [StepResult.mk waitFifty PASS None] None)).
Proof.
  destruct (executeStep_wait World Handle client host waitFifty start
              eq_refl) as ((e' & Hreturns & Hpass) & Hgiven & _).
  destruct (executeStep_wait World Handle client host waitEmpty start
              eq_refl) as (_ & _ & Hdefault & _).
  destruct (executeStep_wait World Handle client host
              (TestStep.mk "Settle" "wait" None (Some "soon")) start
              eq_refl) as (_ & _ & _ & Hnan).
  split; [|split; [|split]].
  - apply (Hgiven "50"); [reflexivity | discriminate].
  - apply Hdefault. now right.
  - apply (Hnan "soon"); [reflexivity | discriminate | reflexivity].
  - rewrite Hpass.
    rewrite (Hgiven "50" eq_refl ltac:(discriminate)) in Hreturns.
    injection Hreturns as <-. reflexivity.
Defined.

Lemma executeStep_empty_field_is_missing_witness :
  TestRunner.executeStep client host
    (TestStep.mk "Press" "click" (Some "") None) start
  = (Threw (ErrorObj "Missing selector for click action in step: Press"), start)
  /\ TestRunner.executeStep client host verifyEmpty start
     = (Threw (ErrorObj
                 "Missing expected value for verify action in step: Anything is shown"),
        start).
Proof.
  destruct (executeStep_empty_field_is_missing World Handle client host
              (TestStep.mk "Press" "click" (Some "") None) start)
    as [Hselector _].
  destruct (executeStep_empty_field_is_missing World Handle client host
              verifyEmpty start) as [_ Hvalue].
  split.
  - now apply (proj1 (Hselector eq_refl)).
  - now apply (proj2 (Hvalue eq_refl)).
Defined.

Lemma launchApp_alias_witness :
  TestRunner.launchApp client host "CALCULATOR" start
  = TestRunner.openAndSettle client host "calc" start
  /\ TestRunner.launchApp client host "notepad" start
     = TestRunner.openAndSettle client host "notepad" start.
Proof.
  destruct (launchApp_alias World Handle client host "CALCULATOR" start)
    as (Halias & _).
  destruct (launchApp_alias World Handle client host "notepad" start)
    as (_ & Hother & _).
  split.
  - now apply Halias.
  - apply Hother. discriminate.
Defined.

End OnScript.

(** * Further properties of the runner *)

Section MoreProperties.

Variables World Handle : Type.
Variable client : DesktopUse.Client World Handle.
Variable host : Host.t World.

Local Abbreviation Env := (Env.t World Handle).
Local Abbreviation Frame := (Frame.t World Handle).
Local Abbreviation launchApp := (TestRunner.launchApp client host).
Local Abbreviation findElement := (TestRunner.findElement client).
Local Abbreviation executeStep := (TestRunner.executeStep client host).
Local Abbreviation forOfSteps := (TestRunner.forOfSteps client host).
Local Abbreviation executeTestCase := (TestRunner.executeTestCase client host).
Local Abbreviation stepsSucceed := (TestRunner.stepsSucceed client host).
Local Abbreviation firstFailure := (TestRunner.firstFailure client host).
Local Abbreviation readClock := (TestRunner.readClock host).
Local Abbreviation tick := (TestRunner.tick host).
Local Abbreviation located := (TestRunner.located client).
Local Abbreviation openAndSettle := (TestRunner.openAndSettle client host).

(** ** Dispatch in [executeStep] *)

Lemma unknown_action_run : forall step (e : Env),
  TestStep.action step <> "click" ->
  TestStep.action step <> "type" ->
  TestStep.action step <> "verify" ->
  TestStep.action step <> "wait" ->
  executeStep step e
  = (Threw (ErrorObj ("Unknown step action: " ++ TestStep.action step)), e).
Proof.
  intros step e Hclick Htype Hverify Hwait.
  unfold TestRunner.executeStep.
  apply String.eqb_neq in Hclick, Htype, Hverify, Hwait.
  now rewrite Hclick, Htype, Hverify, Hwait.
Qed.

(** X1: a step whose action is none of click, type, verify and wait throws
    the unknown-action error, which names the action, and leaves the state
    untouched: no request reaches the collaborator. *)
Theorem executeStep_unknown_action :
  forall step (e : Env),
    TestStep.action step <> "click" ->
    TestStep.action step <> "type" ->
    TestStep.action step <> "verify" ->
    TestStep.action step <> "wait" ->
    executeStep step e
    = (Threw (ErrorObj ("Unknown step action: " ++ TestStep.action step)), e)
    /\ Env.trace (snd (executeStep step e)) = Env.trace e.
Proof.
  intros step e Hclick Htype Hverify Hwait.
  rewrite (unknown_action_run step e Hclick Htype Hverify Hwait).
  split; reflexivity.
Qed.

(** X2: an absent field is rejected before any request.  A click, type or
    verify step with no selector throws the missing-selector error of its
    action; a type or verify step with a usable selector and no value throws
    the missing-value error.  The state is untouched. *)
Theorem executeStep_absent_field :
  forall step (e : Env),
    (TestStep.selector step = None ->
       (TestStep.action step = "click" ->
          executeStep step e
          = (Threw (ErrorObj ("Missing selector for click action in step: "
                              ++ TestStep.description step)), e))
       /\ (TestStep.action step = "type" ->
          executeStep step e
          = (Threw (ErrorObj ("Missing selector for type action in step: "
                              ++ TestStep.description step)), e))
       /\ (TestStep.action step = "verify" ->
          executeStep step e
          = (Threw (ErrorObj ("Missing selector for verify action in step: "
                              ++ TestStep.description step)), e)))
    /\ (forall selector,
          TestStep.selector step = Some selector -> selector <> "" ->
          TestStep.value step = None ->
          (TestStep.action step = "type" ->
             executeStep step e
             = (Threw (ErrorObj ("Missing value for type action in step: "
                                 ++ TestStep.description step)), e))
          /\ (TestStep.action step = "verify" ->
             executeStep step e
             = (Threw (ErrorObj
                         ("Missing expected value for verify action in step: "
                          ++ TestStep.description step)), e))).
Proof.
  intros step e. split.
  - intros Hsel. repeat split; intros Haction;
      unfold TestRunner.executeStep; rewrite Haction, Hsel; reflexivity.
  - intros selector Hsel Hne Hval.
    pose proof (proj2 (truthy_Some _ _) (conj Hsel Hne)) as Htruthy.
    split; intros Haction;
      unfold TestRunner.executeStep; rewrite Haction, Htruthy, Hval;
      reflexivity.
Qed.

(** X3: a click step with a non-empty selector is the locate-then-click
    exchange on that selector, whatever its value field holds; a type step
    with non-empty selector and value is the locate-then-type exchange, and
    the text typed is the value as given.  The outcome of the step, a
    thrown error included, is the outcome of the exchange. *)
Theorem executeStep_click_and_type :
  forall step selector (e : Env),
    TestStep.selector step = Some selector -> selector <> "" ->
    (TestStep.action step = "click" ->
       executeStep step e = located selector Click (DesktopUse.click client) e)
    /\ (forall value,
          TestStep.action step = "type" ->
          TestStep.value step = Some value -> value <> "" ->
          executeStep step e
          = located selector (fun h => TypeText h value)
              (fun h => DesktopUse.typeText client h value) e).
Proof.
  intros step selector e Hsel Hne.
  pose proof (proj2 (truthy_Some _ _) (conj Hsel Hne)) as Htruthy.
  split.
  - intros Haction. unfold TestRunner.executeStep.
    rewrite Haction, Htruthy. cbn [String.eqb Ascii.eqb Bool.eqb].
    apply clickElement_run.
  - intros value Haction Hval Hvne.
    pose proof (proj2 (truthy_Some _ _) (conj Hval Hvne)) as Hvalue.
    unfold TestRunner.executeStep.
    rewrite Haction, Htruthy, Hvalue. cbn [String.eqb Ascii.eqb Bool.eqb].
    apply typeText_run.
Qed.

(** ** The primitives *)

(** X4: when the selector cannot be located, [clickElement], [typeText],
    [getText] and [pressKey] throw the collaborator's error and the only
    request sent is the locate request: no operation is attempted on an
    element that was not found. *)
Theorem element_primitives_stop_at_locate_failure :
  forall selector (e : Env) error w,
    DesktopUse.locator client selector (Env.world e) = (Threw error, w) ->
    let e' := Env.mk w (Env.trace e ++ [Locator selector]) in
    TestRunner.clickElement client selector e = (Threw error, e')
    /\ (forall text,
          TestRunner.typeText client selector text e = (Threw error, e'))
    /\ TestRunner.getText client selector e = (Threw error, e')
    /\ (forall key,
          TestRunner.pressKey client selector key e = (Threw error, e')).
Proof.
  intros selector e error w Hlocate e'. subst e'.
  repeat split; intros;
    rewrite ?clickElement_run, ?typeText_run, ?getText_run, ?pressKey_run;
    unfold TestRunner.located; now rewrite Hlocate.
Qed.

(** X5: [launchApp] sends exactly one open request, for the executable
    name it derives.  When the open returns, the 2000 ms settle delay
    follows and [launchApp] returns; when the open throws, no delay is asked
    for and [launchApp] throws the same error. *)
Theorem launchApp_settles_after_open_only :
  forall appName (e : Env),
    let executableName :=
      if (toLowerCase appName =? "calculator")%string then "calc" else appName in
    (forall w,
        DesktopUse.openApplication client executableName (Env.world e)
        = (Returned tt, w) ->
        launchApp appName e
        = (Returned tt,
           Env.mk (Host.elapse host (Num 2000) w)
             (Env.trace e
              ++ [OpenApplication executableName; Sleep (Num 2000)])))
    /\ (forall error w,
          DesktopUse.openApplication client executableName (Env.world e)
          = (Threw error, w) ->
          launchApp appName e
          = (Threw error,
             Env.mk w (Env.trace e ++ [OpenApplication executableName]))).
Proof.
  intros appName e executableName. subst executableName.
  rewrite launchApp_run. unfold TestRunner.openAndSettle.
  split; intros; rewrite H; reflexivity.
Qed.

(** ** What a run sends to the collaborator *)

Lemma emits_weaken : forall A allowed n n' (m : M Env A),
  emits allowed n m -> (n <= n')%nat -> emits allowed n' m.
Proof.
  intros A allowed n n' m Hm Hle e.
  destruct (Hm e) as (added & Htrace & Hall & Hlen).
  exists added. repeat split; [assumption | assumption | lia].
Qed.

Lemma emits_ret : forall A allowed (a : A), emits allowed 0 (ret a : M Env A).
Proof.
  intros A allowed a e. exists []. simpl. now rewrite app_nil_r.
Qed.

Lemma emits_throw : forall A allowed error,
  emits allowed 0 (throw error : M Env A).
Proof.
  intros A allowed error e. exists []. simpl. now rewrite app_nil_r.
Qed.

Lemma emits_bind : forall A B allowed n1 n2 (m : M Env A) (k : A -> M Env B),
  emits allowed n1 m ->
  (forall a, emits allowed n2 (k a)) ->
  emits allowed (n1 + n2) (bind m k).
Proof.
  intros A B allowed n1 n2 m k Hm Hk e. unfold bind.
  destruct (Hm e) as (added1 & Htrace1 & Hall1 & Hlen1).
  destruct (m e) as [[a|error] e1]; simpl in Htrace1.
  - destruct (Hk a e1) as (added2 & Htrace2 & Hall2 & Hlen2).
    exists (added1 ++ added2)%list. repeat split.
    + now rewrite Htrace2, Htrace1, app_assoc.
    + rewrite forallb_app, Hall1, Hall2. reflexivity.
    + rewrite length_app. lia.
  - exists added1. repeat split; [assumption | assumption | lia].
Qed.

Lemma emits_try_catch : forall A allowed n1 n2 (body : M Env A) handler,
  emits allowed n1 body ->
  (forall error, emits allowed n2 (handler error)) ->
  emits allowed (n1 + n2) (try_catch body handler).
Proof.
  intros A allowed n1 n2 body handler Hbody Hhandler e. unfold try_catch.
  destruct (Hbody e) as (added1 & Htrace1 & Hall1 & Hlen1).
  destruct (body e) as [[a|error] e1]; simpl in Htrace1.
  - exists added1. repeat split; [assumption | assumption | lia].
  - destruct (Hhandler error e1) as (added2 & Htrace2 & Hall2 & Hlen2).
    exists (added1 ++ added2)%list. repeat split.
    + now rewrite Htrace2, Htrace1, app_assoc.
    + rewrite forallb_app, Hall1, Hall2. reflexivity.
    + rewrite length_app. lia.
Qed.

Lemma emits_remote : forall A (allowed : Event Handle -> bool) request
    (call : World -> outcome A * World),
  allowed request = true ->
  emits allowed 1 (TestRunner.remote request call).
Proof.
  intros A allowed request call Hallowed e. unfold TestRunner.remote.
  destruct (call (Env.world e)) as [answer w].
  exists [request]. simpl. rewrite Hallowed. auto.
Qed.

Lemma emits_sleep : forall (allowed : Event Handle -> bool) ms,
  allowed (Sleep ms) = true ->
  emits allowed 1 (TestRunner.sleep host ms).
Proof.
  intros allowed ms Hallowed e. exists [Sleep ms]. simpl.
  rewrite Hallowed. auto.
Qed.

Lemma emits_findElement : forall selector,
  emits stepRequest 1 (findElement selector).
Proof.
  intros selector. unfold TestRunner.findElement.
  apply (emits_try_catch _ _ 1 0); intros;
    [now apply emits_remote | apply emits_throw].
Qed.

(** Locate, then one more request on the element: at most two events. *)
Lemma emits_on_element : forall A selector (request : Handle -> Event Handle)
    (op : Handle -> World -> outcome A * World),
  (forall element, stepRequest (request element) = true) ->
  emits stepRequest 2
    (bind (findElement selector)
       (fun element => TestRunner.remote (request element) (op element))).
Proof.
  intros A selector request op Hrequest.
  apply (emits_bind _ _ _ 1 1); [apply emits_findElement|].
  intros element. now apply emits_remote.
Qed.

Lemma emits_executeStep : forall step, emits stepRequest 2 (executeStep step).
Proof.
  intros step. unfold TestRunner.executeStep.
  destruct (TestStep.action step =? "click")%string.
  { destruct (truthy (TestStep.selector step)) as [selector|].
    - unfold TestRunner.clickElement.
      apply (emits_try_catch _ _ 2 0); intros; [|apply emits_throw].
      now apply emits_on_element.
    - apply (emits_weaken _ _ 0); [apply emits_throw | lia]. }
  destruct (TestStep.action step =? "type")%string.
  { destruct (truthy (TestStep.selector step)) as [selector|];
      [|apply (emits_weaken _ _ 0); [apply emits_throw | lia]].
    destruct (truthy (TestStep.value step)) as [value|];
      [|apply (emits_weaken _ _ 0); [apply emits_throw | lia]].
    unfold TestRunner.typeText.
    apply (emits_try_catch _ _ 2 0); intros; [|apply emits_throw].
    now apply emits_on_element. }
  destruct (TestStep.action step =? "verify")%string.
  { destruct (truthy (TestStep.selector step)) as [selector|];
      [|apply (emits_weaken _ _ 0); [apply emits_throw | lia]].
    destruct (truthy (TestStep.value step)) as [value|];
      [|apply (emits_weaken _ _ 0); [apply emits_throw | lia]].
    apply (emits_bind _ _ _ 2 0).
    - unfold TestRunner.getText.
      apply (emits_try_catch _ _ 2 0); intros; [|apply emits_throw].
      apply (emits_bind _ _ _ 1 1); [apply emits_findElement|].
      intros element. apply (emits_bind _ _ _ 1 0); intros;
        [now apply emits_remote | apply emits_ret].
    - intros text. destruct (negb (includes text value));
        [apply emits_throw | apply emits_ret]. }
  destruct (TestStep.action step =? "wait")%string.
  { apply (emits_weaken _ _ 1); [now apply emits_sleep | lia]. }
  apply (emits_weaken _ _ 0); [apply emits_throw | lia].
Qed.

Lemma stepsSucceed_requests : forall steps (e e' : Env),
  stepsSucceed steps e e' ->
  exists added,
    Env.trace e' = (Env.trace e ++ added)%list
    /\ forallb stepRequest added = true
    /\ (length added <= 2 * length steps)%nat.
Proof.
  induction 1 as [e|step rest e e1 e' Hstep _ (added2 & Ht2 & Ha2 & Hl2)].
  - exists []. simpl. now rewrite app_nil_r.
  - destruct (emits_executeStep step e) as (added1 & Ht1 & Ha1 & Hl1).
    rewrite Hstep in Ht1. simpl in Ht1.
    exists (added1 ++ added2)%list. repeat split.
    + now rewrite Ht2, Ht1, app_assoc.
    + rewrite forallb_app, Ha1, Ha2. reflexivity.
    + rewrite length_app. simpl. lia.
Qed.

Lemma firstFailure_requests : forall steps (e : Env) k step error e',
  firstFailure steps e k step error e' ->
  exists added,
    Env.trace e' = (Env.trace e ++ added)%list
    /\ forallb stepRequest added = true
    /\ (length added <= 2 * S k)%nat.
Proof.
  induction 1 as [step rest e error e' Hstep
                 |first rest e e1 k step error e' Hstep _
                    (added2 & Ht2 & Ha2 & Hl2)].
  - destruct (emits_executeStep step e) as (added & Ht & Ha & Hl).
    rewrite Hstep in Ht. simpl in Ht.
    exists added. repeat split; [assumption | assumption | lia].
  - destruct (emits_executeStep first e) as (added1 & Ht1 & Ha1 & Hl1).
    rewrite Hstep in Ht1. simpl in Ht1.
    exists (added1 ++ added2)%list. repeat split.
    + now rewrite Ht2, Ht1, app_assoc.
    + rewrite forallb_app, Ha1, Ha2. reflexivity.
    + rewrite length_app. lia.
Qed.

(** The trace of a whole run, with the result it belongs to. *)
Lemma executeTestCase_requests : forall tc (e : Env),
  exists rest,
    Env.trace (snd (executeTestCase tc e))
    = (Env.trace e
       ++ OpenApplication
            (if (toLowerCase (TestCase.application tc) =? "calculator")%string
             then "calc" else TestCase.application tc)
          :: rest)%list
    /\ forallb stepRequest rest = true
    /\ (length rest <= 1 + 2 * length (TestCase.steps tc))%nat
    /\ forall r,
         fst (executeTestCase tc e) = Returned r ->
         (length rest <= 3 + 2 * length (TestResult.steps r))%nat
         /\ (TestResult.status r <> ERROR ->
             (length rest <= 1 + 2 * length (TestResult.steps r))%nat).
Proof.
  intros tc e.
  destruct (launchApp (TestCase.application tc) (tick (tick e)))
    as [[[]|error] eL] eqn:Hlaunch.
  - assert (Hopen : Env.trace eL
                    = (Env.trace e
                       ++ [OpenApplication
                             (if (toLowerCase (TestCase.application tc)
                                  =? "calculator")%string
                              then "calc" else TestCase.application tc);
                           Sleep (Num 2000)])%list).
    { rewrite launchApp_run in Hlaunch.
      unfold TestRunner.openAndSettle in Hlaunch.
      destruct (DesktopUse.openApplication client _ _) as [[[]|error] w];
        [|discriminate].
      now injection Hlaunch as <-. }
    destruct (steps_succeed_or_fail _ _ client host (TestCase.steps tc) eL)
      as [[eN Hsteps]|(k & step & error & eF & Hfail)].
    + destruct (stepsSucceed_requests _ _ _ Hsteps) as (added & Ht & Ha & Hl).
      exists (Sleep (Num 2000) :: added).
      rewrite (executeTestCase_all_pass _ _ _ _ _ _ _ _ Hlaunch Hsteps).
      cbn [fst snd Env.trace TestRunner.tick]. repeat split.
      * rewrite Ht, Hopen, <- app_assoc. reflexivity.
      * simpl. exact Ha.
      * simpl. lia.
      * injection H as <-. cbn [TestResult.steps].
        rewrite length_map. simpl. lia.
      * injection H as <-. cbn [TestResult.steps].
        rewrite length_map. simpl. lia.
    + destruct (firstFailure_requests _ _ _ _ _ _ Hfail)
        as (added & Ht & Ha & Hl).
      destruct (firstFailure_nth _ _ _ _ _ _ _ _ _ _ Hfail) as [_ Hlt].
      pose proof (length_passed_firstn k _ Hlt) as Hlen.
      exists (Sleep (Num 2000) :: added).
      rewrite (executeTestCase_step_throws _ _ _ _ _ _ _ _ _ _ _ Hlaunch Hfail).
      assert (Htrace : Env.trace eF
                       = (Env.trace e
                          ++ OpenApplication
                               (if (toLowerCase (TestCase.application tc)
                                    =? "calculator")%string
                                then "calc" else TestCase.application tc)
                             :: Sleep (Num 2000) :: added)%list)
        by (rewrite Ht, Hopen, <- app_assoc; reflexivity).
      destruct (errorMessageOf error) as [message|raised];
        [|destruct (errorMessageOf raised) as [message|raised']];
        cbn [fst snd Env.trace TestRunner.tick];
        (split; [exact Htrace|]); (split; [exact Ha|]);
        (split; [simpl; lia|]); intros r Hr; try discriminate Hr;
        injection Hr as <-; cbn [TestResult.steps TestResult.status];
        rewrite ?length_app, Hlen; simpl; split; intros; try lia.
      now elim H.
  - exists [].
    rewrite (executeTestCase_launch_throws _ _ _ _ _ _ _ _ Hlaunch).
    assert (Htrace : Env.trace eL
                     = (Env.trace e
                        ++ [OpenApplication
                              (if (toLowerCase (TestCase.application tc)
                                   =? "calculator")%string
                               then "calc" else TestCase.application tc)])%list).
    { rewrite launchApp_run in Hlaunch.
      unfold TestRunner.openAndSettle in Hlaunch.
      destruct (DesktopUse.openApplication client _ _) as [[[]|error'] w];
        [discriminate|].
      now injection Hlaunch as _ <-. }
    destruct (errorMessageOf error) as [message|raised];
      cbn [fst snd Env.trace TestRunner.tick];
      (split; [exact Htrace|]); (split; [reflexivity|]);
      (split; [simpl; lia|]); intros r Hr; try discriminate Hr;
      injection Hr as <-; simpl; split; intros; lia.
Qed.

(** X6: whatever its action and fields, a step sends at most two requests
    (delays counted), appended to the trace, and they are only locate,
    click, type-text, get-text and delay requests: a step never opens an
    application, never checks visibility and never presses a key. *)
Theorem executeStep_requests :
  forall step (e : Env),
    exists added,
      Env.trace (snd (executeStep step e)) = (Env.trace e ++ added)%list
      /\ forallb stepRequest added = true
      /\ (length added <= 2)%nat
      /\ (forall name, ~ In (OpenApplication name) added)
      /\ (forall element, ~ In (IsVisible element) added)
      /\ (forall element key, ~ In (PressKey element key) added).
Proof.
  intros step e.
  destruct (emits_executeStep step e) as (added & Ht & Ha & Hl).
  exists added. repeat split; try assumption;
    intros; intros Hin;
    apply (proj1 (forallb_forall _ _) Ha) in Hin; discriminate.
Qed.

(** X7: every run, whether it returns a result or throws, opens the
    application exactly once, as its first request, under the executable
    name [launchApp] derives; nothing that follows is an open request, a
    visibility check or a key press. *)
Theorem executeTestCase_opens_once_and_first :
  forall tc (e : Env),
    exists rest,
      Env.trace (snd (executeTestCase tc e))
      = (Env.trace e
         ++ OpenApplication
              (if (toLowerCase (TestCase.application tc) =? "calculator")%string
               then "calc" else TestCase.application tc)
            :: rest)%list
      /\ forallb stepRequest rest = true
      /\ (forall name, ~ In (OpenApplication name) rest).
Proof.
  intros tc e.
  destruct (executeTestCase_requests tc e) as (rest & Ht & Ha & _).
  exists rest. repeat split; try assumption.
  intros name Hin.
  apply (proj1 (forallb_forall _ _) Ha) in Hin. discriminate.
Qed.

(** X8: every run sends at least one event and at most [2 + 2 * N], for
    [N] declared steps, the open request, the settle delay and the delays
    of wait steps included.  A returned result with [n] step results comes
    after at most [4 + 2 * n] events, and after at most [2 + 2 * n] when
    its status is PASS or FAIL. *)
Theorem executeTestCase_request_bound :
  forall tc (e : Env),
    (length (Env.trace e) < length (Env.trace (snd (executeTestCase tc e))))%nat
    /\ (length (Env.trace (snd (executeTestCase tc e)))
        <= length (Env.trace e) + 2 + 2 * length (TestCase.steps tc))%nat
    /\ forall r e',
         executeTestCase tc e = (Returned r, e') ->
         (length (Env.trace e')
          <= length (Env.trace e) + 4 + 2 * length (TestResult.steps r))%nat
         /\ (TestResult.status r <> ERROR ->
             (length (Env.trace e')
              <= length (Env.trace e) + 2 + 2 * length (TestResult.steps r))%nat).
Proof.
  intros tc e.
  destruct (executeTestCase_requests tc e) as (rest & Ht & _ & Hl & Hr).
  rewrite Ht, length_app. simpl. repeat split; try lia.
  - rewrite H in Ht, Hr. simpl in Ht. rewrite Ht, length_app. simpl.
    destruct (Hr r eq_refl) as [Hbound _]. lia.
  - intros Hstatus. rewrite H in Ht, Hr. simpl in Ht.
    rewrite Ht, length_app. simpl.
    destruct (Hr r eq_refl) as [_ Hbound]. specialize (Hbound Hstatus). lia.
Qed.

(** ** Results over longer step lists *)

Lemma stepsSucceed_app : forall pre post (e e1 e2 : Env),
  stepsSucceed pre e e1 ->
  stepsSucceed post e1 e2 ->
  stepsSucceed (pre ++ post) e e2.
Proof.
  induction 1 as [e|step rest e e0 e1 Hstep _ IH]; intros Hpost.
  - exact Hpost.
  - simpl. econstructor; [eassumption | now apply IH].
Qed.

Lemma firstFailure_app : forall steps extra (e : Env) k step error e',
  firstFailure steps e k step error e' ->
  firstFailure (steps ++ extra) e k step error e'.
Proof.
  induction 1; simpl; [now constructor | econstructor; eassumption].
Qed.

Lemma firstFailure_after : forall pre post (e e1 : Env) k step error e2,
  stepsSucceed pre e e1 ->
  firstFailure post e1 k step error e2 ->
  firstFailure (pre ++ post) e (length pre + k) step error e2.
Proof.
  induction 1 as [e|first rest e e0 e1 Hstep _ IH]; intros Hpost.
  - exact Hpost.
  - simpl. econstructor; [eassumption | now apply IH].
Qed.

Lemma firstn_within : forall (A : Type) k (l extra : list A),
  (k < length l)%nat -> firstn k (l ++ extra) = firstn k l.
Proof.
  intros A k l extra Hlt. rewrite firstn_app.
  replace (k - length l)%nat with 0%nat by lia.
  simpl. apply app_nil_r.
Qed.

(** The paths of a run that returns a result, as for C5, with the
    equations of the messages kept. *)
Ltac returned_paths tc e Hrun :=
  let eL := fresh "eL" in
  let Hlaunch := fresh "Hlaunch" in
  let error := fresh "error" in
  let message := fresh "message" in
  let raised := fresh "raised" in
  let Hmessage := fresh "Hmessage" in
  let Hraised := fresh "Hraised" in
  destruct (launchApp_unit _ _ client host (TestCase.application tc)
              (tick (tick e))) as [[eL Hlaunch]|(error & eL & Hlaunch)];
  [ let eN := fresh "eN" in
    let Hsteps := fresh "Hsteps" in
    let k := fresh "k" in
    let step := fresh "step" in
    let eF := fresh "eF" in
    let Hfail := fresh "Hfail" in
    destruct (steps_succeed_or_fail _ _ client host (TestCase.steps tc) eL)
      as [[eN Hsteps]|(k & step & error & eF & Hfail)];
    [ rewrite (executeTestCase_all_pass _ _ _ _ _ _ _ _ Hlaunch Hsteps) in Hrun
    | rewrite (executeTestCase_step_throws _ _ _ _ _ _ _ _ _ _ _ Hlaunch Hfail)
        in Hrun;
      destruct (errorMessageOf error) as [message|raised] eqn:Hmessage;
      [ | destruct (errorMessageOf raised) as [message|] eqn:Hraised;
          [ | discriminate Hrun ] ] ]
  | rewrite (executeTestCase_launch_throws _ _ _ _ _ _ _ _ Hlaunch) in Hrun;
    destruct (errorMessageOf error) as [message|raised] eqn:Hmessage;
    [ | discriminate Hrun ] ];
  injection Hrun as <- <-.

(** X9: once a run has ended with a status other than PASS, steps appended
    to the test case change nothing: the run of the longer test case ends
    in the same state with the same status, times, step results and
    message. *)
Theorem appended_steps_do_not_change_a_failed_run :
  forall tc (e : Env) r e' extra,
    executeTestCase tc e = (Returned r, e') ->
    TestResult.status r <> PASS ->
    let longer :=
      TestCase.mk (TestCase.application tc) (TestCase.steps tc ++ extra) in
    executeTestCase longer e
    = (Returned
         (TestResult.mk longer (TestResult.status r) (TestResult.startTime r)
            (TestResult.endTime r) (TestResult.duration r)
            (TestResult.steps r) (TestResult.error r)),
       e').
Proof.
  intros tc e r e' extra Hrun Hstatus longer.
  returned_paths tc e Hrun.
  - now elim Hstatus.
  - destruct (firstFailure_nth _ _ _ _ _ _ _ _ _ _ Hfail) as [_ Hlt].
    rewrite (executeTestCase_step_throws _ _ client host longer e eL eF
               k step error Hlaunch (firstFailure_app _ extra _ _ _ _ _ Hfail)).
    rewrite Hmessage.
    cbn [TestCase.steps longer TestResult.status TestResult.startTime
         TestResult.endTime TestResult.duration TestResult.steps
         TestResult.error].
    now rewrite (firstn_within _ k _ extra Hlt).
  - destruct (firstFailure_nth _ _ _ _ _ _ _ _ _ _ Hfail) as [_ Hlt].
    rewrite (executeTestCase_step_throws _ _ client host longer e eL eF
               k step error Hlaunch (firstFailure_app _ extra _ _ _ _ _ Hfail)).
    rewrite Hmessage, Hraised.
    cbn [TestCase.steps longer TestResult.status TestResult.startTime
         TestResult.endTime TestResult.duration TestResult.steps
         TestResult.error].
    now rewrite (firstn_within _ k _ extra Hlt).
  - rewrite (executeTestCase_launch_throws _ _ client host longer e eL
               error Hlaunch).
    now rewrite Hmessage.
Qed.

(** X10: appending steps to a test case never changes what is recorded for
    the steps before them: when the run of the shorter and the run of the
    longer test case both return a result, the step results of the shorter
    run are an initial segment of those of the longer run. *)
Theorem appended_steps_extend_the_step_results :
  forall tc (e : Env) extra r e1 r' e2,
    executeTestCase tc e = (Returned r, e1) ->
    executeTestCase
      (TestCase.mk (TestCase.application tc) (TestCase.steps tc ++ extra)) e
    = (Returned r', e2) ->
    exists more,
      TestResult.steps r' = (TestResult.steps r ++ more)%list
      /\ TestResult.startTime r' = TestResult.startTime r.
Proof.
  intros tc e extra r e1 r' e2 Hrun Hlonger.
  set (longer := TestCase.mk (TestCase.application tc)
                   (TestCase.steps tc ++ extra)) in Hlonger.
  returned_paths tc e Hrun.
  - destruct (steps_succeed_or_fail _ _ client host extra eN)
      as [[eM Hextra]|(k & step & error & eF & Hfail)].
    + rewrite (executeTestCase_all_pass _ _ client host longer e eL eM
                 Hlaunch (stepsSucceed_app _ _ _ _ _ Hsteps Hextra)) in Hlonger.
      injection Hlonger as <- _. exists (map passed extra).
      cbn [TestResult.steps TestResult.startTime TestCase.steps longer].
      split; [apply map_app | reflexivity].
    + rewrite (executeTestCase_step_throws _ _ client host longer e eL
                 eF _ step error Hlaunch
                 (firstFailure_after _ _ _ _ _ _ _ _ Hsteps Hfail)) in Hlonger.
      cbn [TestCase.steps longer] in Hlonger.
      rewrite firstn_app_2, map_app in Hlonger.
      destruct (errorMessageOf error) as [message|raised];
        [|destruct (errorMessageOf raised) as [message|]; [|discriminate]];
        injection Hlonger as <- _; eexists;
        cbn [TestResult.steps TestResult.startTime];
        (split; [|reflexivity]).
      * rewrite <- app_assoc. reflexivity.
      * reflexivity.
  - destruct (firstFailure_nth _ _ _ _ _ _ _ _ _ _ Hfail) as [_ Hlt].
    rewrite (executeTestCase_step_throws _ _ client host longer e eL eF
               k step error Hlaunch (firstFailure_app _ extra _ _ _ _ _ Hfail))
      in Hlonger.
    rewrite Hmessage in Hlonger. injection Hlonger as <- _. exists [].
    cbn [TestResult.steps TestResult.startTime TestCase.steps longer].
    split; [|reflexivity].
    now rewrite (firstn_within _ k _ extra Hlt), app_nil_r.
  - destruct (firstFailure_nth _ _ _ _ _ _ _ _ _ _ Hfail) as [_ Hlt].
    rewrite (executeTestCase_step_throws _ _ client host longer e eL eF
               k step error Hlaunch (firstFailure_app _ extra _ _ _ _ _ Hfail))
      in Hlonger.
    rewrite Hmessage, Hraised in Hlonger. injection Hlonger as <- _. exists [].
    cbn [TestResult.steps TestResult.startTime TestCase.steps longer].
    split; [|reflexivity].
    now rewrite (firstn_within _ k _ extra Hlt), app_nil_r.
  - rewrite (executeTestCase_launch_throws _ _ client host longer e eL
               error Hlaunch) in Hlonger.
    rewrite Hmessage in Hlonger. injection Hlonger as <- _. exists [].
    split; reflexivity.
Qed.

(** ** The shape of every result *)

Lemma Forall_removelast : forall (A : Type) (P : A -> Prop) l,
  Forall P l -> Forall P (removelast l).
Proof.
  induction 1 as [|a l Ha Hl IH]; [constructor|].
  simpl. destruct l; [constructor | now constructor].
Qed.

Lemma Forall_passed_clean : forall steps,
  Forall (fun sr => StepResult.status sr = PASS /\ StepResult.error sr = None)
         (map passed steps).
Proof.
  intros steps. apply Forall_forall. intros sr Hin.
  apply in_map_iff in Hin as (step & <- & _). now split.
Qed.

(** X11: in every returned result, each step result except possibly the
    last is a PASS without message; every step result is either such a PASS or a FAIL
    that carries a message; none has the status ERROR. *)
Theorem executeTestCase_step_results_shape :
  forall tc (e : Env) r e',
    executeTestCase tc e = (Returned r, e') ->
    Forall (fun sr => StepResult.status sr = PASS
                      /\ StepResult.error sr = None)
           (removelast (TestResult.steps r))
    /\ Forall (fun sr => (StepResult.status sr = PASS
                          /\ StepResult.error sr = None)
                         \/ (StepResult.status sr = FAIL
                             /\ exists message,
                                 StepResult.error sr = Some message))
              (TestResult.steps r).
Proof.
  intros tc e r e' Hrun.
  returned_paths tc e Hrun; cbn [TestResult.steps].
  - split.
    + apply Forall_removelast, Forall_passed_clean.
    + eapply Forall_impl; [|apply Forall_passed_clean]. now left.
  - split.
    + rewrite removelast_last. apply Forall_passed_clean.
    + apply Forall_app. split.
      * eapply Forall_impl; [|apply Forall_passed_clean]. now left.
      * constructor; [|constructor]. right. split; [reflexivity|].
        eexists. reflexivity.
  - split.
    + apply Forall_removelast, Forall_passed_clean.
    + eapply Forall_impl; [|apply Forall_passed_clean]. now left.
  - split; constructor.
Qed.

(** X12: in every returned result the overall status and the step results
    agree.  PASS comes with one step result per declared step and no
    message; FAIL comes with a last step result that is a FAIL, whose
    message is the tail of the test-level message, after the description of
    its step; ERROR comes with step results that are all PASS (none, when
    the launch failed) and a test-level message of the outer handler. *)
Theorem executeTestCase_status_matches_steps :
  forall tc (e : Env) r e',
    executeTestCase tc e = (Returned r, e') ->
    match TestResult.status r with
    | PASS =>
        length (TestResult.steps r) = length (TestCase.steps tc)
        /\ TestResult.error r = None
    | FAIL =>
        exists init sr message,
          TestResult.steps r = (init ++ [sr])%list
          /\ StepResult.status sr = FAIL
          /\ StepResult.error sr = Some message
          /\ TestResult.error r
             = Some ("Step failed: "
                     ++ TestStep.description (StepResult.step sr)
                     ++ ". Error: " ++ message)
    | ERROR =>
        Forall (fun sr => StepResult.status sr = PASS
                          /\ StepResult.error sr = None)
               (TestResult.steps r)
        /\ (length (TestResult.steps r) = 0%nat
            \/ length (TestResult.steps r) < length (TestCase.steps tc))%nat
        /\ exists message,
            TestResult.error r = Some ("Test execution error: " ++ message)
    end.
Proof.
  intros tc e r e' Hrun.
  returned_paths tc e Hrun;
    cbn [TestResult.steps TestResult.status TestResult.error].
  - split; [apply length_map | reflexivity].
  - exists (map passed (firstn k (TestCase.steps tc))), (failed step message),
      message.
    repeat split.
  - destruct (firstFailure_nth _ _ _ _ _ _ _ _ _ _ Hfail) as [_ Hlt].
    split; [apply Forall_passed_clean|]. split.
    + right. now rewrite (length_passed_firstn k _ Hlt).
    + eexists. reflexivity.
  - split; [constructor|]. split; [now left | eexists; reflexivity].
Qed.

(** ** Time *)

Section SteadyClock.

Hypothesis steady : steadyClock client host.

Lemma nondecreasing_ret : forall A (a : A),
  @nondecreasing World Handle A host (ret a).
Proof. intros A a e. simpl. lia. Qed.

Lemma nondecreasing_throw : forall A error,
  @nondecreasing World Handle A host (throw error).
Proof. intros A error e. simpl. lia. Qed.

Lemma nondecreasing_bind : forall A B (m : M Env A) (k : A -> M Env B),
  nondecreasing host m ->
  (forall a, nondecreasing host (k a)) ->
  nondecreasing host (bind m k).
Proof.
  intros A B m k Hm Hk e. unfold bind.
  specialize (Hm e). destruct (m e) as [[a|error] e1]; simpl in Hm.
  - specialize (Hk a e1). lia.
  - simpl. lia.
Qed.

Lemma nondecreasing_try_catch : forall A (body : M Env A) handler,
  nondecreasing host body ->
  (forall error, nondecreasing host (handler error)) ->
  nondecreasing host (try_catch body handler).
Proof.
  intros A body handler Hbody Hhandler e. unfold try_catch.
  specialize (Hbody e). destruct (body e) as [[a|error] e1]; simpl in Hbody.
  - simpl. lia.
  - specialize (Hhandler error e1). lia.
Qed.

Lemma nondecreasing_remote : forall A (request : Event Handle)
    (call : World -> outcome A * World),
  (forall w, fst (Host.clock host w) <= fst (Host.clock host (snd (call w))))%Z ->
  nondecreasing host (TestRunner.remote request call).
Proof.
  intros A request call Hcall e.
  unfold TestRunner.remote, TestRunner.readClock.
  specialize (Hcall (Env.world e)).
  destruct (call (Env.world e)) as [answer w]. exact Hcall.
Qed.

Lemma nondecreasing_sleep : forall ms,
  @nondecreasing World Handle unit host (TestRunner.sleep host ms).
Proof.
  intros ms e. unfold TestRunner.readClock. simpl.
  apply (proj1 (proj2 steady)).
Qed.

Lemma nondecreasing_tick : forall e : Env, (readClock e <= readClock (tick e))%Z.
Proof.
  intros e. unfold TestRunner.readClock, TestRunner.tick. simpl.
  apply (proj1 steady).
Qed.

Lemma nondecreasing_findElement : forall selector,
  nondecreasing host (findElement selector).
Proof.
  intros selector. unfold TestRunner.findElement.
  apply nondecreasing_try_catch; [|intros; apply nondecreasing_throw].
  apply nondecreasing_remote. intros w. apply steady.
Qed.

Lemma nondecreasing_launchApp : forall appName,
  nondecreasing host (launchApp appName).
Proof.
  intros appName. unfold TestRunner.launchApp.
  apply nondecreasing_try_catch; [|intros; apply nondecreasing_throw].
  apply nondecreasing_bind; [|intros; apply nondecreasing_sleep].
  apply nondecreasing_remote. intros w. apply steady.
Qed.

Lemma nondecreasing_executeStep : forall step,
  nondecreasing host (executeStep step).
Proof.
  intros step. unfold TestRunner.executeStep,
    TestRunner.clickElement, TestRunner.typeText, TestRunner.getText.
  repeat match goal with
         | |- nondecreasing _ (if ?b then _ else _) => destruct b
         | |- nondecreasing _ (match truthy ?f with _ => _ end) =>
             destruct (truthy f)
         | |- nondecreasing _ (try_catch _ _) => apply nondecreasing_try_catch
         | |- nondecreasing _ (bind _ _) => apply nondecreasing_bind
         | |- nondecreasing _ (throw _) => apply nondecreasing_throw
         | |- nondecreasing _ (ret _) => apply nondecreasing_ret
         | |- nondecreasing _ (TestRunner.sleep _ _) => apply nondecreasing_sleep
         | |- nondecreasing _ (TestRunner.findElement _ _) =>
             apply nondecreasing_findElement
         | |- nondecreasing _ (TestRunner.remote _ _) =>
             apply nondecreasing_remote; intros w; apply steady
         | |- forall _, _ => intros
         end.
Qed.

Lemma stepsSucceed_time : forall steps (e e' : Env),
  stepsSucceed steps e e' -> (readClock e <= readClock e')%Z.
Proof.
  induction 1 as [e|step rest e e1 e' Hstep _ IH]; [lia|].
  pose proof (nondecreasing_executeStep step e) as H.
  rewrite Hstep in H. simpl in H. lia.
Qed.

Lemma firstFailure_time : forall steps (e : Env) k step error e',
  firstFailure steps e k step error e' -> (readClock e <= readClock e')%Z.
Proof.
  induction 1 as [step rest e error e' Hstep
                 |first rest e e1 k step error e' Hstep _ IH].
  - pose proof (nondecreasing_executeStep step e) as H.
    now rewrite Hstep in H.
  - pose proof (nondecreasing_executeStep first e) as H.
    rewrite Hstep in H. simpl in H. lia.
Qed.

(** X13: with a steady clock, one that no operation of the run makes read
    less than before, every returned result has [startTime <= endTime] and
    a non-negative duration. *)
Theorem executeTestCase_duration_nonnegative :
  forall tc (e : Env) r e',
    executeTestCase tc e = (Returned r, e') ->
    (TestResult.startTime r <= TestResult.endTime r)%Z
    /\ (0 <= TestResult.duration r)%Z.
Proof.
  intros tc e r e' Hrun.
  pose proof (nondecreasing_tick e) as H1.
  pose proof (nondecreasing_tick (tick e)) as H2.
  pose proof (nondecreasing_launchApp (TestCase.application tc)
                (tick (tick e))) as H3.
  returned_paths tc e Hrun; rewrite Hlaunch in H3; simpl in H3;
    cbn [TestResult.startTime TestResult.endTime TestResult.duration].
  - pose proof (stepsSucceed_time _ _ _ Hsteps) as H4. lia.
  - pose proof (firstFailure_time _ _ _ _ _ _ Hfail) as H4. lia.
  - pose proof (firstFailure_time _ _ _ _ _ _ Hfail) as H4. lia.
  - lia.
Qed.

End SteadyClock.

(** ** More on the primitives and on rejected steps *)

(** X14: when the selector is located, each element primitive sends its one
    request for the located element, with the argument it was given, and
    its outcome is the collaborator's; [getText] returns the [text] field
    of the response. *)
Theorem element_primitives_operate_on_the_located_element :
  forall selector (e : Env) element w,
    DesktopUse.locator client selector (Env.world e) = (Returned element, w) ->
    (forall answer w',
        DesktopUse.click client element w = (answer, w') ->
        TestRunner.clickElement client selector e
        = (answer,
           Env.mk w' (Env.trace e ++ [Locator selector; Click element])))
    /\ (forall text answer w',
          DesktopUse.typeText client element text w = (answer, w') ->
          TestRunner.typeText client selector text e
          = (answer,
             Env.mk w' (Env.trace e
                        ++ [Locator selector; TypeText element text])))
    /\ (forall key answer w',
          DesktopUse.pressKey client element key w = (answer, w') ->
          TestRunner.pressKey client selector key e
          = (answer,
             Env.mk w' (Env.trace e
                        ++ [Locator selector; PressKey element key])))
    /\ (forall response w',
          DesktopUse.getText client element w = (Returned response, w') ->
          TestRunner.getText client selector e
          = (Returned (DesktopUse.text response),
             Env.mk w' (Env.trace e ++ [Locator selector; GetText element]))).
Proof.
  intros selector e element w Hlocate. repeat split; intros.
  - rewrite clickElement_run. unfold TestRunner.located.
    now rewrite Hlocate, H.
  - rewrite typeText_run. unfold TestRunner.located.
    now rewrite Hlocate, H.
  - rewrite pressKey_run. unfold TestRunner.located.
    now rewrite Hlocate, H.
  - rewrite getText_run. unfold TestRunner.located.
    now rewrite Hlocate, H.
Qed.

(** X15: in a run whose launch succeeds, a step with an unknown action that
    follows passing steps ends the run as FAIL: its step result carries the
    unknown-action message, the test-level message wraps it, and the run
    ends in the state the last passing step left, up to the final clock
    read. *)
Theorem executeTestCase_unknown_action :
  forall tc pre step post (e eL e1 : Env),
    TestCase.steps tc = (pre ++ step :: post)%list ->
    launchApp (TestCase.application tc) (tick (tick e)) = (Returned tt, eL) ->
    stepsSucceed pre eL e1 ->
    TestStep.action step <> "click" ->
    TestStep.action step <> "type" ->
    TestStep.action step <> "verify" ->
    TestStep.action step <> "wait" ->
    exists r,
      executeTestCase tc e = (Returned r, tick e1)
      /\ TestResult.status r = FAIL
      /\ TestResult.steps r
         = (map passed pre
            ++ [StepResult.mk step FAIL
                  (Some ("Unknown step action: " ++ TestStep.action step)%string)])%list
      /\ TestResult.error r
         = Some ("Step failed: " ++ TestStep.description step
                 ++ ". Error: Unknown step action: " ++ TestStep.action step).
Proof.
  intros tc pre step post e eL e1 Hsteps Hlaunch Hpre Hc Ht Hv Hw.
  assert (Hfail : firstFailure (TestCase.steps tc) eL (length pre + 0) step
                    (ErrorObj ("Unknown step action: " ++ TestStep.action step))
                    e1).
  { rewrite Hsteps. apply firstFailure_after with (e1 := e1); [assumption|].
    constructor. now apply unknown_action_run. }
  eexists.
  split; [exact (executeTestCase_step_fails _ _ _ _ _ _ _ _ _ _ _ _
                   Hlaunch Hfail eq_refl)|].
  cbn [TestResult.status TestResult.steps TestResult.error].
  repeat split.
  rewrite Hsteps, firstn_app_2. simpl. now rewrite app_nil_r.
Qed.

End MoreProperties.

(** * The further properties on the scripted collaborator *)

Module OnScriptMore.
Import Script MoreScript.

Lemma executeStep_unknown_action_witness :
  TestRunner.executeStep client host scroll start
  = (Threw (ErrorObj "Unknown step action: scroll"), start)
  /\ Env.trace (snd (TestRunner.executeStep client host scroll start)) = [].
Proof.
  apply (executeStep_unknown_action World Handle client host scroll start);
    discriminate.
Defined.

Lemma executeStep_absent_field_witness :
  TestRunner.executeStep client host clickNowhere start
  = (Threw (ErrorObj "Missing selector for click action in step: Click"), start)
  /\ TestRunner.executeStep client host typeNothing start
     = (Threw (ErrorObj "Missing value for type action in step: Type"), start).
Proof.
  destruct (executeStep_absent_field World Handle client host
              clickNowhere start) as [Hselector _].
  destruct (executeStep_absent_field World Handle client host
              typeNothing start) as [_ Hvalue].
  split.
  - now apply (proj1 (Hselector eq_refl)).
  - apply (proj1 (Hvalue "name:Edit" eq_refl ltac:(discriminate) eq_refl)).
    reflexivity.
Defined.

Lemma executeStep_click_and_type_witness :
  TestRunner.executeStep client host clickSeven start
  = (Returned tt, Env.mk 1000%Z [Locator "name:Seven"; Click "name:Seven"])
  /\ TestRunner.executeStep client host typeHello start
     = (Returned tt,
        Env.mk 1000%Z [Locator "name:Edit"; TypeText "name:Edit" "Hello"]).
Proof.
  destruct (executeStep_click_and_type World Handle client host clickSeven
              "name:Seven" start eq_refl ltac:(discriminate)) as [Hclick _].
  destruct (executeStep_click_and_type World Handle client host typeHello
              "name:Edit" start eq_refl ltac:(discriminate)) as [_ Htype].
  split.
  - now rewrite (Hclick eq_refl).
  - now rewrite (Htype "Hello" eq_refl eq_refl ltac:(discriminate)).
Defined.

Lemma element_primitives_stop_at_locate_failure_witness :
  TestRunner.clickElement client "name:Ghost" start
  = (Threw (ErrorObj "Element not found"), Env.mk 1000%Z [Locator "name:Ghost"])
  /\ TestRunner.pressKey client "name:Ghost" "Enter" start
     = (Threw (ErrorObj "Element not found"),
        Env.mk 1000%Z [Locator "name:Ghost"]).
Proof.
  destruct (element_primitives_stop_at_locate_failure World Handle client
              "name:Ghost" start (ErrorObj "Element not found") 1000%Z eq_refl)
    as (Hclick & _ & _ & Hpress).
  split; [exact Hclick | exact (Hpress "Enter")].
Defined.

Lemma launchApp_settles_after_open_only_witness :
  TestRunner.launchApp client host "ghostapp" start
  = (Threw (ApiError 404 "Application not found"),
     Env.mk 1000%Z [OpenApplication "ghostapp"])
  /\ TestRunner.launchApp client host "Calculator" start
     = (Returned tt,
        Env.mk 3000%Z [OpenApplication "calc"; Sleep (Num 2000)]).
Proof.
  destruct (launchApp_settles_after_open_only World Handle client host
              "ghostapp" start) as [_ Hthrows].
  destruct (launchApp_settles_after_open_only World Handle client host
              "Calculator" start) as [Hreturns _].
  split.
  - apply (Hthrows (ApiError 404 "Application not found") 1000%Z).
    reflexivity.
  - apply (Hreturns 1000%Z). reflexivity.
Defined.

Lemma executeStep_requests_witness :
  exists added,
    Env.trace (snd (TestRunner.executeStep client host verifyHello start))
    = added
    /\ (length added <= 2)%nat.
Proof.
  destruct (executeStep_requests World Handle client host verifyHello start)
    as (added & Htrace & _ & Hlen & _).
  exists added. auto.
Defined.

Lemma executeTestCase_opens_once_and_first_witness :
  exists rest,
    Env.trace (snd (TestRunner.executeTestCase client host failingCase start))
    = OpenApplication "calc" :: rest
    /\ forall name, ~ In (OpenApplication name) rest.
Proof.
  destruct (executeTestCase_opens_once_and_first World Handle client host
              failingCase start) as (rest & Htrace & _ & Hnone).
  exists rest. auto.
Defined.

Lemma executeTestCase_request_bound_witness :
  (length (Env.trace
             (snd (TestRunner.executeTestCase MoreScript.bareClient host
                     bareStepCase start)))
   <= 0 + 2 + 2 * 3)%nat
  /\ exists r e',
      TestRunner.executeTestCase MoreScript.bareClient host bareStepCase start
      = (Returned r, e')
      /\ (length (Env.trace e') <= 0 + 4 + 2 * length (TestResult.steps r))%nat.
Proof.
  destruct (executeTestCase_request_bound World Handle MoreScript.bareClient
              host bareStepCase start) as (_ & Hdeclared & Hrecorded).
  split; [exact Hdeclared|].
  destruct (TestRunner.executeTestCase MoreScript.bareClient host
              bareStepCase start)
    as [[r|error] e'] eqn:Hrun; [|vm_compute in Hrun; discriminate].
  exists r, e'. split; [reflexivity|].
  exact (proj1 (Hrecorded r e' eq_refl)).
Defined.

Lemma appended_steps_do_not_change_a_failed_run_witness :
  exists r e',
    TestRunner.executeTestCase client host failingCase start = (Returned r, e')
    /\ TestResult.status r <> PASS
    /\ exists r',
        TestRunner.executeTestCase client host
          (TestCase.mk "Calculator" (TestCase.steps failingCase ++ [verifyHello]))
          start
        = (Returned r', e')
        /\ TestResult.steps r' = TestResult.steps r
        /\ TestResult.status r' = TestResult.status r.
Proof.
  destruct (TestRunner.executeTestCase client host failingCase start)
    as [[r|error] e'] eqn:Hrun; [|vm_compute in Hrun; discriminate].
  assert (Hstatus : TestResult.status r <> PASS).
  { vm_compute in Hrun. injection Hrun as <- _. discriminate. }
  exists r, e'. split; [reflexivity|]. split; [exact Hstatus|].
  eexists. split.
  - exact (appended_steps_do_not_change_a_failed_run World Handle client host
             failingCase start r e' [verifyHello] Hrun Hstatus).
  - split; reflexivity.
Defined.

Lemma appended_steps_extend_the_step_results_witness :
  exists r e1 r' e2 more,
    TestRunner.executeTestCase client host passingCase start = (Returned r, e1)
    /\ TestRunner.executeTestCase client host
         (TestCase.mk "CALCULATOR" (TestCase.steps passingCase ++ [clickDisabled]))
         start
       = (Returned r', e2)
    /\ TestResult.steps r' = (TestResult.steps r ++ more)%list.
Proof.
  destruct (TestRunner.executeTestCase client host passingCase start)
    as [[r|error] e1] eqn:Hrun; [|vm_compute in Hrun; discriminate].
  destruct (TestRunner.executeTestCase client host
              (TestCase.mk "CALCULATOR"
                 (TestCase.steps passingCase ++ [clickDisabled])) start)
    as [[r'|error] e2] eqn:Hlonger; [|vm_compute in Hlonger; discriminate].
  destruct (appended_steps_extend_the_step_results World Handle client host
              passingCase start [clickDisabled] r e1 r' e2 Hrun Hlonger)
    as (more & Hsteps & _).
  exists r, e1, r', e2, more. auto.
Defined.

Lemma executeTestCase_step_results_shape_witness :
  exists r e',
    TestRunner.executeTestCase client host failingCase start = (Returned r, e')
    /\ Forall (fun sr => StepResult.status sr = PASS
                         /\ StepResult.error sr = None)
              (removelast (TestResult.steps r)).
Proof.
  destruct (TestRunner.executeTestCase client host failingCase start)
    as [[r|error] e'] eqn:Hrun; [|vm_compute in Hrun; discriminate].
  destruct (executeTestCase_step_results_shape World Handle client host
              failingCase start r e' Hrun) as (Hinit & _).
  exists r, e'. auto.
Defined.

Lemma executeTestCase_status_matches_steps_witness :
  exists r e',
    TestRunner.executeTestCase MoreScript.bareClient host bareStepCase start
    = (Returned r, e')
    /\ TestResult.status r = ERROR
    /\ TestResult.steps r = [StepResult.mk clickSeven PASS None]
    /\ Forall (fun sr => StepResult.status sr = PASS
                         /\ StepResult.error sr = None)
              (TestResult.steps r)
    /\ exists message,
        TestResult.error r = Some ("Test execution error: " ++ message).
Proof.
  destruct (TestRunner.executeTestCase MoreScript.bareClient host
              bareStepCase start)
    as [[r|error] e'] eqn:Hrun; [|vm_compute in Hrun; discriminate].
  pose proof (executeTestCase_status_matches_steps World Handle
                MoreScript.bareClient host bareStepCase start r e' Hrun)
    as Hshape.
  assert (Hstatus : TestResult.status r = ERROR)
    by (vm_compute in Hrun; now injection Hrun as <- _).
  assert (Hsteps : TestResult.steps r = [StepResult.mk clickSeven PASS None])
    by (vm_compute in Hrun; now injection Hrun as <- _).
  rewrite Hstatus in Hshape. destruct Hshape as (Hall & _ & Hmessage).
  exists r, e'. auto.
Defined.

Lemma executeTestCase_duration_nonnegative_witness :
  steadyClock client steadyHost
  /\ exists r e',
      TestRunner.executeTestCase client steadyHost passingCase start
      = (Returned r, e')
      /\ (0 <= TestResult.duration r)%Z.
Proof.
  assert (Hsteady : steadyClock client steadyHost).
  { unfold steadyClock. cbn.
    repeat split; intros;
      repeat match goal with
             | |- context [if ?b then _ else _] => destruct b
             | ms : JsNumber |- _ => destruct ms
             end; cbn; lia. }
  split; [exact Hsteady|].
  destruct (TestRunner.executeTestCase client steadyHost passingCase start)
    as [[r|error] e'] eqn:Hrun; [|vm_compute in Hrun; discriminate].
  destruct (executeTestCase_duration_nonnegative World Handle client
              steadyHost Hsteady passingCase start r e' Hrun)
    as (_ & Hduration).
  exists r, e'. auto.
Defined.

Lemma element_primitives_operate_on_the_located_element_witness :
  TestRunner.getText client "name:Display" start
  = (Returned "Hello World",
     Env.mk 1000%Z [Locator "name:Display"; GetText "name:Display"])
  /\ TestRunner.pressKey client "name:Disabled" "Enter" start
     = (Threw (ErrorObj "Element is disabled"),
        Env.mk 1000%Z
          [Locator "name:Disabled"; PressKey "name:Disabled" "Enter"]).
Proof.
  destruct (element_primitives_operate_on_the_located_element World Handle
              client "name:Display" start "name:Display" 1000%Z eq_refl)
    as (_ & _ & _ & Htext).
  destruct (element_primitives_operate_on_the_located_element World Handle
              client "name:Disabled" start "name:Disabled" 1000%Z eq_refl)
    as (_ & _ & Hpress & _).
  split.
  - apply (Htext {| DesktopUse.text := "Hello World" |} 1000%Z). reflexivity.
  - apply (Hpress "Enter" (Threw (ErrorObj "Element is disabled")) 1000%Z).
    reflexivity.
Defined.

Lemma executeTestCase_unknown_action_witness :
  exists r,
    TestRunner.executeTestCase client host scrollCase start
    = (Returned r, TestRunner.tick host afterSeven)
    /\ TestResult.status r = FAIL
    /\ length (TestResult.steps r) = 2%nat
    /\ TestResult.error r
       = Some "Step failed: Scroll down. Error: Unknown step action: scroll".
Proof.
  assert (Hpre : TestRunner.stepsSucceed client host [clickSeven]
                   launched afterSeven).
  { eapply TestRunner.succeed_cons; [vm_compute; reflexivity|].
    apply TestRunner.succeed_nil. }
  destruct (executeTestCase_unknown_action World Handle client host
              scrollCase [clickSeven] scroll [clickSeven] start launched
              afterSeven eq_refl eq_refl Hpre
              ltac:(discriminate) ltac:(discriminate)
              ltac:(discriminate) ltac:(discriminate))
    as (r & Hrun & Hstatus & Hsteps & Herror).
  exists r. repeat split; try assumption.
  now rewrite Hsteps.
Defined.

End OnScriptMore.
